(** * pahcer-studio: run orchestration and result reconciliation

    A shallow embedding of the TypeScript services that drive the external
    [pahcer] scoring tool, and the properties of its specification:

    - [ConfigService]        src/services/ConfigService.ts
    - [ScoreAnalysisService] src/services/ScoreAnalysisService.ts
    - [ExecutionRepository]  src/repositories/ExecutionRepository.ts
    - [ProcessManager]       src/infrastructure/ProcessManager.ts
    - [ExecutionService]     src/services/ExecutionService.ts

    Conventions of the embedding.

    - The file system is an explicit [World] value that every operation
      threads.  A file is [Missing] (ENOENT), [Garbled] (present, but its
      parser throws) or [Holds] a parsed value.  Other I/O failures
      (permissions, full disk) are outside the model.  The tools/out
      scratch directory and the per-case output files are not part of
      [World]; [Scratch] and [CaseOutputs] treat them on their own.
    - A string is the sequence of bytes of its UTF-8 encoding.
    - JavaScript numbers that come out of JSON are finite rationals [Q];
      values computed by the code live in [number], which adds [NaN].
      Rounding and overflow of IEEE doubles are idealised away; seeds and
      counts are integers.
    - An [async] function whose awaits are all file-system calls is one
      atomic step.  The only suspension point that is kept is the wait for
      the child process in [ProcessManager.executePacher]: it splits
      [ExecutionService.executePacher] into the part run by [startExecution]
      and the part run when the child's [close] or [error] event fires.
    - Exceptions are the [Throw] outcome of the [M] monad.
    - The events of the service's EventEmitter are collected in order; the
      lines the child prints (forwarded as log events) are not modelled. *)

From Stdlib Require Import Ascii String QArith Qabs DecimalString.
From stdpp Require Import gmap strings list fin_maps sorting.

Open Scope string_scope.

#[local] Set Warnings "-register-all".

(* ===================================================================== *)
(** * JavaScript values                                                   *)
(* ===================================================================== *)

(** A JavaScript number as the code computes with it. *)
Inductive number :=
  | NaN
  | Num (q : Q).

Definition isNaN (x : number) : bool :=
  match x with NaN => true | Num _ => false end.

(** [x <= y]; any comparison with NaN is false. *)
Definition num_le (x y : number) : bool :=
  match x, y with
  | Num a, Num b => Qle_bool a b
  | _, _ => false
  end.

(** [x > y]; any comparison with NaN is false. *)
Definition num_gt (x y : number) : bool :=
  match x, y with
  | Num a, Num b => negb (Qle_bool a b)
  | _, _ => false
  end.

Definition num_add (x y : number) : number :=
  match x, y with
  | Num a, Num b => Num (a + b)
  | _, _ => NaN
  end.

Definition num_sub (x y : number) : number :=
  match x, y with
  | Num a, Num b => Num (a - b)
  | _, _ => NaN
  end.

Definition num_mul (x y : number) : number :=
  match x, y with
  | Num a, Num b => Num (a * b)
  | _, _ => NaN
  end.

(** [x / y].  Every division in the embedded code is guarded by a positive
    divisor; a zero divisor (an infinity or NaN in JavaScript) is mapped to
    [NaN] and is never reached. *)
Definition num_div (x y : number) : number :=
  match x, y with
  | Num a, Num b => if Qeq_bool b 0 then NaN else Num (a / b)
  | _, _ => NaN
  end.

(** [Math.abs] *)
Definition num_abs (x : number) : number :=
  match x with
  | Num a => Num (Qabs a)
  | NaN => NaN
  end.

(** [isNaN(x) ? 0 : x], the normalisation applied before a value is stored
    in a record. *)
Definition nan_to_zero (x : number) : Q :=
  match x with
  | NaN => 0
  | Num q => q
  end.

Definition of_Z (z : Z) : number := Num (inject_Z z).

(** A parsed JSON document.  An object lists its own properties in the
    order [Object.entries] enumerates them, with distinct keys. *)
Inductive json :=
  | JNull
  | JBool (b : bool)
  | JNumber (q : Q)
  | JString (s : string)
  | JArray (l : list json)
  | JObject (o : list (string * json)).

(** Outcome of a computation that may throw. *)
Inductive res (A : Type) :=
  | Ok (a : A)
  | Throw.
Arguments Ok {A} a.
Arguments Throw {A}.

(** State of one file. *)
Inductive FileState (A : Type) :=
  | Missing
  | Garbled (raw : string)
  | Holds (a : A).
Arguments Missing {A}.
Arguments Garbled {A} raw.
Arguments Holds {A} a.

(** [fs.access] succeeds on the file. *)
Definition fileExists {A} (f : FileState A) : bool :=
  match f with
  | Missing => false
  | _ => true
  end.

(** Decimal rendering of an array index, [String(i)]. *)
Definition index_key (i : nat) : string :=
  NilEmpty.string_of_uint (Nat.to_uint i).

Fixpoint indexed {A} (i : nat) (l : list A) : list (string * A) :=
  match l with
  | [] => []
  | x :: r => (index_key i, x) :: indexed (S i) r
  end.

Fixpoint chars (s : string) : list json :=
  match s with
  | EmptyString => []
  | String c r => JString (String c EmptyString) :: chars r
  end.

(** [Object.entries(v)]: throws a TypeError on [null]; primitives other
    than strings have no own enumerable properties. *)
Definition Object_entries (v : json) : res (list (string * json)) :=
  match v with
  | JNull => Throw
  | JBool _ | JNumber _ => Ok []
  | JString s => Ok (indexed 0 (chars s))
  | JArray l => Ok (indexed 0 l)
  | JObject o => Ok o
  end.

(** ** [parseInt(s, 10)] *)

(** A string is the sequence of bytes of its UTF-8 encoding.  The members
    of StrWhiteSpaceChar that take one byte: TAB, LF, VT, FF, CR, SP. *)
Definition is_space (c : ascii) : bool :=
  let n := nat_of_ascii c in
  ((9 <=? n)%nat && (n <=? 13)%nat) || (n =? 32)%nat.

(** The member that takes two bytes: U+00A0. *)
Definition is_space2 (c1 c2 : ascii) : bool :=
  (nat_of_ascii c1 =? 194)%nat && (nat_of_ascii c2 =? 160)%nat.

(** The members that take three bytes: U+1680, U+2000 to U+200A, U+2028,
    U+2029, U+202F, U+205F, U+3000 and U+FEFF. *)
Definition is_space3 (c1 c2 c3 : ascii) : bool :=
  let a := nat_of_ascii c1 in
  let b := nat_of_ascii c2 in
  let c := nat_of_ascii c3 in
  ((a =? 225)%nat && (b =? 154)%nat && (c =? 128)%nat)
  || ((a =? 226)%nat && (b =? 128)%nat &&
      (((128 <=? c)%nat && (c <=? 138)%nat) || (c =? 168)%nat || (c =? 169)%nat
       || (c =? 175)%nat))
  || ((a =? 226)%nat && (b =? 129)%nat && (c =? 159)%nat)
  || ((a =? 227)%nat && (b =? 128)%nat && (c =? 128)%nat)
  || ((a =? 239)%nat && (b =? 187)%nat && (c =? 191)%nat).

(** The string behind its leading white space. *)
Fixpoint skip_ws (s : string) : string :=
  match s with
  | String c r =>
      if is_space c then skip_ws r
      else
        match r with
        | String c2 r2 =>
            if is_space2 c c2 then skip_ws r2
            else
              match r2 with
              | String c3 r3 => if is_space3 c c2 c3 then skip_ws r3 else s
              | EmptyString => s
              end
        | EmptyString => s
        end
  | EmptyString => s
  end.

Definition digit_val (c : ascii) : option Z :=
  let n := nat_of_ascii c in
  if (48 <=? n)%nat && (n <=? 57)%nat then Some (Z.of_nat (n - 48)) else None.

(** Value of the longest prefix of decimal digits; [acc] is [None] until a
    digit has been read. *)
Fixpoint digits (s : string) (acc : option Z) : option Z :=
  match s with
  | String c r =>
      match digit_val c with
      | Some d => digits r (Some (10 * default 0%Z acc + d)%Z)
      | None => acc
      end
  | EmptyString => acc
  end.

(** [parseInt(s, 10)]; [None] stands for NaN. *)
Definition parseInt (s : string) : option Z :=
  match skip_ws s with
  | String "-" r => Z.opp <$> digits r None
  | String "+" r => digits r None
  | t => digits t None
  end.

(* ===================================================================== *)
(** * ConfigService                                                       *)
(* ===================================================================== *)

Inductive Objective := Max | Min.

(** Leaf values of pahcer_config.toml. *)
Inductive toml :=
  | TInt (z : Z)
  | TStr (s : string)
  | TBool (b : bool)
  | TStrs (l : list string).

(** [SummaryCaseRaw] (types/summary) *)
Record SummaryCaseRaw := {
  seed : Z;
  score : option Q;
  execution_time : Q;
  error_message : option string;
}.

(** The [cases] field of a summary.json, by what the code can do with it.
    An array holds case objects, as in the files the tool writes. *)
Inductive Cases :=
  | NoCases                                (* missing, null or another falsy value *)
  | TextCases                              (* a string that is not empty *)
  | OtherCases                             (* a number other than 0, true, or an object *)
  | ArrayCases (cs : list SummaryCaseRaw).

(** [Array.isArray(c) ? c : undefined] *)
Definition arrayOf (c : Cases) : option (list SummaryCaseRaw) :=
  match c with
  | ArrayCases cs => Some cs
  | _ => None
  end.

(** [SummaryJson] (types/summary) *)
Record SummaryJson := {
  case_count : option Z;
  total_score : option Q;
  max_execution_time : option Q;
  summary_comment : option string;
  wa_seeds : option (list Z);
  cases : Cases;
}.

Inductive TestExecutionStatus := IDLE | RUNNING | COMPLETED | FAILED | CANCELLED.

#[global] Instance TestExecutionStatus_eq_dec : EqDecision TestExecutionStatus.
Proof. solve_decision. Defined.

(** [TestExecution] (schemas/execution.ts).  Every value of this record
    passes [TestExecutionSchema.safeParse]. *)
Record TestExecution := {
  id : string;
  status : TestExecutionStatus;
  startTime : option Z;
  comment : option string;
  averageScore : option Q;
  averageRelativeScore : option Q;
  acceptedCount : option Z;
  totalCount : option Z;
  maxExecutionTime : option Q;
}.

(** Parsed content of an execution_info.json: a JSON value that
    [TestExecutionSchema] accepts, or one that is falsy or that the schema
    rejects. *)
Inductive InfoJson :=
  | InfoRejected
  | InfoValid (e : TestExecution).

(** Parsed content of a summary.json: a falsy JSON value ([null], [0],
    [false], an empty string) or anything else, read as a [SummaryJson]. *)
Inductive SummaryFile :=
  | SummaryFalsy
  | SummaryData (s : SummaryJson).

(** data/results/<id>/ *)
Record RunDir := {
  info : FileState InfoJson;
  summary : FileState SummaryFile;
}.

(** The text of a TOML file that smol-toml can parse: either the text
    [stringify c] that this program wrote, or a text of other origin,
    together with what [parse] makes of it.  [parse (stringify c)] is taken
    to be [c].  A [PahcerConfig] is a map from section name (general,
    problem, test, and whatever else the file has) to the table of that
    section. *)
Inductive TomlFile :=
  | Written (c : gmap string (gmap string toml))
  | External (raw : string) (c : gmap string (gmap string toml)).

(** [parse(content)] *)
Definition parse (f : TomlFile) : gmap string (gmap string toml) :=
  match f with
  | Written c => c
  | External _ c => c
  end.

(** The files the services touch, and the wall clock.  A timestamp is the
    instant its ISO string denotes, in milliseconds. *)
Record World := {
  configFile : FileState TomlFile;                          (* pahcer_config.toml *)
  backupFile : FileState TomlFile;                          (* pahcer_config.toml.bak *)
  bestScoresFile : FileState json;                          (* pahcer/best_scores.json *)
  latestSummary : FileState SummaryFile;         (* newest *.json under pahcer/json *)
  results : gmap string RunDir;                             (* data/results/ *)
  now : Z;                                                  (* new Date() *)
}.

Definition set_configFile (f : FileState TomlFile) (w : World) : World :=
  {| configFile := f; backupFile := backupFile w; bestScoresFile := bestScoresFile w;
     latestSummary := latestSummary w; results := results w; now := now w |}.

Definition set_backupFile (f : FileState TomlFile) (w : World) : World :=
  {| configFile := configFile w; backupFile := f; bestScoresFile := bestScoresFile w;
     latestSummary := latestSummary w; results := results w; now := now w |}.

Definition set_results (r : gmap string RunDir) (w : World) : World :=
  {| configFile := configFile w; backupFile := backupFile w; bestScoresFile := bestScoresFile w;
     latestSummary := latestSummary w; results := r; now := now w |}.

Module ConfigService.

(** [getConfig]: a read or parse error yields the empty object. *)
Definition getConfig (w : World) : gmap string (gmap string toml) :=
  match configFile w with
  | Holds content => parse content
  | _ => ∅
  end.

(** [backupConfig]: [fs.copyFile(configPath, backupPath)] *)
Definition backupConfig (w : World) : World * bool :=
  match configFile w with
  | Missing => (w, false)
  | f => (set_backupFile f w, true)
  end.

(** [restoreConfig]: [fs.access(backupPath)], then copy back. *)
Definition restoreConfig (w : World) : World * bool :=
  match backupFile w with
  | Missing => (w, false)
  | f => (set_configFile f w, true)
  end.

(** The object literal
    [{...currentConfig, test: {...currentConfig.test, start_seed, end_seed}}] *)
Definition withTestWindow (testCaseCount startSeed : Z)
    (currentConfig : gmap string (gmap string toml)) : gmap string (gmap string toml) :=
  <["test" :=
      <["end_seed" := TInt (startSeed + testCaseCount)]>
        (<["start_seed" := TInt startSeed]> (default ∅ (currentConfig !! "test")))]>
    currentConfig.

(** [updateConfigForTest].  The write cannot fail in this model, so the
    [catch] arm that returns false is never entered. *)
Definition updateConfigForTest (testCaseCount startSeed : Z) (w : World) : World * bool :=
  let w1 := fst (backupConfig w) in
  let currentConfig := getConfig w1 in
  let updatedConfig := withTestWindow testCaseCount startSeed currentConfig in
  (set_configFile (Holds (Written updatedConfig)) w1, true).

(** [getObjective]: [config.problem?.objective || 'Max'].  A value other
    than the string Min takes the Max branch of [calculateRelativeScore]. *)
Definition getObjective (w : World) : Objective :=
  match getConfig w !! "problem" with
  | Some problem =>
      match problem !! "objective" with
      | Some (TStr s) => if String.eqb s "Min" then Min else Max
      | _ => Max
      end
  | None => Max
  end.

(** The loop body of [getBestScores]. *)
Definition addBestScore (result : gmap Z Q) (entry : string * json) : gmap Z Q :=
  match parseInt (fst entry) with
  | Some seed =>
      match snd entry with
      | JNumber score => <[seed := score]> result
      | _ => result
      end
  | None => result
  end.

(** The [try] block of [getBestScores]. *)
Definition readBestScores (w : World) : res (gmap Z Q) :=
  match bestScoresFile w with
  | Missing => Throw
  | Garbled _ => Throw
  | Holds bestScores =>
      match Object_entries bestScores with
      | Ok entries => Ok (foldl addBestScore ∅ entries)
      | Throw => Throw
      end
  end.

(** [getBestScores]: both arms of the [catch] return the empty object. *)
Definition getBestScores (w : World) : gmap Z Q :=
  match readBestScores w with
  | Ok result => result
  | Throw => ∅
  end.

(** [calculateRelativeScore] *)
Definition calculateRelativeScore (score bestScore : number) (objective : Objective) : number :=
  if num_le score (Num 0) || num_le bestScore (Num 0) then Num 0
  else
    match objective with
    | Min => num_div bestScore score
    | Max => num_div score bestScore
    end.

End ConfigService.

(* ===================================================================== *)
(** * ScoreAnalysisService: statistics of one summary                     *)
(* ===================================================================== *)

Module ScoreAnalysisService.

(** [loadConfig]: neither [getBestScores] nor [getObjective] throws, so the
    ConfigLoadFailed arm is never taken. *)
Definition loadConfig (w : World) : gmap Z Q * Objective :=
  (ConfigService.getBestScores w, ConfigService.getObjective w).

(** One iteration of the loop
    [if (c.score != null && bestScores[c.seed] !== undefined) { total += ...; cnt++ }] *)
Definition addCase (bestScores : gmap Z Q) (objective : Objective)
    (acc : number * nat) (c : SummaryCaseRaw) : number * nat :=
  match score c, bestScores !! seed c with
  | Some s, Some best =>
      (num_add (fst acc) (ConfigService.calculateRelativeScore (Num s) (Num best) objective),
       S (snd acc))
  | _, _ => acc
  end.

(** The loop over [summary.cases], from [total = 0, cnt = 0]. *)
Definition sumRelative (bestScores : gmap Z Q) (objective : Objective)
    (cs : list SummaryCaseRaw) : number * nat :=
  foldl (addCase bestScores objective) (Num 0, 0%nat) cs.

(** [cnt ? total / cnt : 0] *)
Definition meanOrZero (acc : number * nat) : number :=
  match snd acc with
  | O => Num 0
  | S _ => num_div (fst acc) (of_Z (Z.of_nat (snd acc)))
  end.

Record ExecutionStats := {
  stat_totalCount : Z;
  stat_acceptedCount : Z;
  stat_averageScore : Q;
  stat_averageRelativeScore : Q;
  stat_maxExecutionTime : Q;
}.

(** [calculateExecutionStats] *)
Definition calculateExecutionStats (summaryData : SummaryJson) (w : World) : ExecutionStats :=
  let caseCnt := default 0%Z (case_count summaryData) in
  let avgScore :=
    if (0 <? caseCnt)%Z
    then num_div (Num (default 0%Q (total_score summaryData))) (of_Z caseCnt)
    else Num 0 in
  let avgRel :=
    if (0 <? caseCnt)%Z then
      match arrayOf (cases summaryData) with
      | Some cs =>
          let '(bestScores, objective) := loadConfig w in
          meanOrZero (sumRelative bestScores objective cs)
      | None => Num 0
      end
    else Num 0 in
  {| stat_totalCount := caseCnt;
     stat_acceptedCount := caseCnt - Z.of_nat (length (default [] (wa_seeds summaryData)));
     stat_averageScore := nan_to_zero avgScore;
     stat_averageRelativeScore := nan_to_zero avgRel;
     stat_maxExecutionTime := default 0%Q (max_execution_time summaryData) * 1000 |}.

(** [readSummary]: any failure yields [null]. *)
Definition readSummary (f : FileState SummaryFile) : option SummaryFile :=
  match f with
  | Holds s => Some s
  | _ => None
  end.

End ScoreAnalysisService.

(* ===================================================================== *)
(** * ExecutionRepository                                                 *)
(* ===================================================================== *)

Module ExecutionRepository.

Definition infoFile (w : World) (i : string) : FileState InfoJson :=
  match results w !! i with
  | Some d => info d
  | None => Missing
  end.

Definition summaryFile (w : World) (i : string) : FileState SummaryFile :=
  match results w !! i with
  | Some d => summary d
  | None => Missing
  end.

(** [readJsonFile]: [null] on ENOENT, every other error is rethrown. *)
Definition readJsonFile {A} (f : FileState A) : res (option A) :=
  match f with
  | Missing => Ok None
  | Garbled _ => Throw
  | Holds a => Ok (Some a)
  end.

(** [exists] on the run directory. *)
Definition dirExists (w : World) (i : string) : bool :=
  match results w !! i with
  | Some _ => true
  | None => false
  end.

(** [save]: [mkdir -p] the run directory and write execution_info.json.
    The schema check cannot fail on a [TestExecution]. *)
Definition save (execution : TestExecution) (w : World) : World :=
  set_results
    (<[id execution :=
        {| info := Holds (InfoValid execution);
           summary := summaryFile w (id execution) |}]> (results w)) w.

(** [a || b] on optional strings: the empty string is falsy. *)
Definition str_or (a b : option string) : option string :=
  match a with
  | Some s => if String.eqb s "" then b else a
  | None => b
  end.

(** [mergeWithSummary] *)
Definition mergeWithSummary (execution : TestExecution) (s : SummaryJson) (w : World)
    : TestExecution :=
  let stats := ScoreAnalysisService.calculateExecutionStats s w in
  {| id := id execution;
     status := status execution;
     startTime := startTime execution;
     comment := str_or (str_or (comment execution) (summary_comment s)) (Some "");
     averageScore := Some (ScoreAnalysisService.stat_averageScore stats);
     averageRelativeScore := Some (ScoreAnalysisService.stat_averageRelativeScore stats);
     acceptedCount := Some (ScoreAnalysisService.stat_acceptedCount stats);
     totalCount := Some (ScoreAnalysisService.stat_totalCount stats);
     maxExecutionTime := Some (ScoreAnalysisService.stat_maxExecutionTime stats) |}.

(** The record [findById] makes up when only a summary exists. *)
Definition synthesized (i : string) (w : World) : TestExecution :=
  {| id := i; status := COMPLETED; startTime := Some (now w); comment := None;
     averageScore := Some 0%Q; averageRelativeScore := Some 0%Q;
     acceptedCount := None; totalCount := None; maxExecutionTime := None |}.

(** [findById] *)
Definition findById (i : string) (w : World) : res (option TestExecution) :=
  match readJsonFile (infoFile w i) with
  | Throw => Throw
  | Ok infoData =>
      let execution :=
        match infoData with
        | Some (InfoValid e) => Some e
        | _ => None
        end in
      match readJsonFile (summaryFile w i) with
      | Throw => Throw
      | Ok summaryData =>
          let execution :=
            match summaryData with
            | Some (SummaryData s) =>
                Some (mergeWithSummary (default (synthesized i w) execution) s w)
            | _ => execution
            end in
          if dirExists w i then Ok execution else Ok None
      end
  end.

End ExecutionRepository.

Module Repo := ExecutionRepository.

Definition set_status (st : TestExecutionStatus) (e : TestExecution) : TestExecution :=
  {| id := id e; status := st; startTime := startTime e; comment := comment e;
     averageScore := averageScore e; averageRelativeScore := averageRelativeScore e;
     acceptedCount := acceptedCount e; totalCount := totalCount e;
     maxExecutionTime := maxExecutionTime e |}.

Definition set_averageRelativeScore (v : option Q) (e : TestExecution) : TestExecution :=
  {| id := id e; status := status e; startTime := startTime e; comment := comment e;
     averageScore := averageScore e; averageRelativeScore := v;
     acceptedCount := acceptedCount e; totalCount := totalCount e;
     maxExecutionTime := maxExecutionTime e |}.

(** [a.startTime ? new Date(a.startTime).getTime() : 0] *)
Definition timeOf (e : TestExecution) : Z := default 0%Z (startTime e).

(** [Array.prototype.sort] with the comparator [timeB - timeA]: a stable
    sort, latest start first. *)
Fixpoint insertByTime (x : TestExecution) (l : list TestExecution) : list TestExecution :=
  match l with
  | [] => [x]
  | y :: r => if (timeOf x <? timeOf y)%Z then y :: insertByTime x r else x :: l
  end.

Definition sortByTime (l : list TestExecution) : list TestExecution :=
  foldr insertByTime [] l.

(** [ExecutionRepository.findAll]: the entries of data/results in directory
    order, each loaded with [findById]; an entry whose load throws or finds
    nothing is skipped. *)
Definition findAll (w : World) : list TestExecution :=
  sortByTime
    (omap (fun d : string * RunDir =>
             match Repo.findById (fst d) w with
             | Ok (Some execution) => Some execution
             | _ => None
             end)
          (map_to_list (results w))).

(** [ExecutionRepository.updateStatus] *)
Definition updateStatus (i : string) (st : TestExecutionStatus) (w : World) : World * res unit :=
  match Repo.findById i w with
  | Throw => (w, Throw)
  | Ok None => (w, Ok tt)
  | Ok (Some execution) => (Repo.save (set_status st execution) w, Ok tt)
  end.

(** The fixed epsilon of [recalculateAllRelativeScores]. *)
Definition epsilon : Q := 1 # 1000.

(** The body of the loop of [recalculateAllRelativeScores]; the state is the
    file system and the counter [updated].  [continue] ends the body with
    the state as it is.  [for (const c of summary.cases)] runs over the
    elements of an array and over the characters of a string, which have no
    score; on any other truthy value it throws a TypeError. *)
Definition recalculateOne (bestScores : gmap Z Q) (objective : Objective)
    (st : World * nat) (exe : TestExecution) : World * res nat :=
  let '(w, updated) := st in
  let compare (cs : list SummaryCaseRaw) : World * res nat :=
    let newAvg :=
      ScoreAnalysisService.meanOrZero
        (ScoreAnalysisService.sumRelative bestScores objective cs) in
    if num_gt (num_abs (num_sub newAvg (Num (default 0%Q (averageRelativeScore exe)))))
              (Num epsilon)
    then (Repo.save (set_averageRelativeScore (Some (nan_to_zero newAvg)) exe) w,
          Ok (S updated))
    else (w, Ok updated) in
  match ScoreAnalysisService.readSummary (Repo.summaryFile w (id exe)) with
  | Some (SummaryData s) =>
      match cases s with
      | NoCases => (w, Ok updated)
      | TextCases => compare []
      | OtherCases => (w, Throw)
      | ArrayCases cs => compare cs
      end
  | _ => (w, Ok updated)
  end.

(** The loop over [allExecutions]: it ends with the first body that throws,
    what was saved before staying saved. *)
Fixpoint recalculateLoop (bestScores : gmap Z Q) (objective : Objective)
    (allExecutions : list TestExecution) (st : World * nat) : World * res nat :=
  match allExecutions with
  | [] => (fst st, Ok (snd st))
  | exe :: rest =>
      match recalculateOne bestScores objective st exe with
      | (w, Ok updated) => recalculateLoop bestScores objective rest (w, updated)
      | (w, Throw) => (w, Throw)
      end
  end.

(** [ScoreAnalysisService.recalculateAllRelativeScores]; the result carries
    the two numbers of its closing log line, [updated] and
    [allExecutions.length]. *)
Definition recalculateAllRelativeScores (w : World) : World * res (nat * nat) :=
  let '(bestScores, objective) := ScoreAnalysisService.loadConfig w in
  let allExecutions := findAll w in
  match recalculateLoop bestScores objective allExecutions (w, 0%nat) with
  | (w', Ok updated) => (w', Ok (updated, length allExecutions))
  | (w', Throw) => (w', Throw)
  end.

(* ===================================================================== *)
(** * The running application: processes, events, the service monad       *)
(* ===================================================================== *)

Module Request.
(** [TestExecutionRequest] (schemas/execution.ts) *)
Record TestExecutionRequest := {
  comment : option string;
  shuffle : bool;
  freezeBestScores : bool;
  testCaseCount : Z;
  startSeed : Z;
}.
End Request.

Inductive LogLevel := debug | info_ | warn | error.

(** The message texts of [emitLog], one constructor per string literal of
    ExecutionService.ts, with the interpolated values as arguments. *)
Inductive LogText :=
  | UpdatingConfig              (* Updating pahcer_config.toml for test execution... *)
  | UpdateConfigFailed          (* Failed to update pahcer_config.toml, but continuing execution... *)
  | ConfigUpdated (start_seed end_seed : Z)
  | KilledByUser                (* Pacher process killed by user. *)
  | RestoringAfterStop
  | RestoreFailed
  | Restored
  | ExecutionStarted (executionId : string)
  | Restoring
  | PacherCompleted
  | PacherFailed (exitCode : option Z)
  | RestoringAfterError
  | RestoreFailedAfterError
  | RestoredAfterError
  | PacherError
  | Recalculating
  | RecalculationCompleted
  | RecalculationFailed         (* Relative score recalculation failed: ... *)
  | FinalResultPassed (acceptedCount totalCount : option Z)
  | FinalResultFailed.

(** What the service emits on its EventEmitter. *)
Inductive Emitted :=
  | execution_log (executionId : string) (level : LogLevel) (message : LogText)
  | execution_status (executionId : string) (st : TestExecutionStatus) (execution : TestExecution)
  | execution_progress (executionId : string) (execution : TestExecution).

(** A spawned child: the execution id its [close] and [error] listeners
    close over, and whether SIGKILL was sent to it. *)
Record Child := {
  owner : string;
  sigkill : bool;
}.

Record System := {
  world : World;
  activeProcesses : gmap string nat;   (* ProcessManager.activeProcesses *)
  children : gmap nat Child;           (* children whose close event is still to come *)
  nextPid : nat;
  emitted : list Emitted;              (* in order of emission *)
}.

Definition set_world (w : World) (s : System) : System :=
  {| world := w; activeProcesses := activeProcesses s; children := children s;
     nextPid := nextPid s; emitted := emitted s |}.

Definition set_activeProcesses (a : gmap string nat) (s : System) : System :=
  {| world := world s; activeProcesses := a; children := children s;
     nextPid := nextPid s; emitted := emitted s |}.

Definition set_children (c : gmap nat Child) (s : System) : System :=
  {| world := world s; activeProcesses := activeProcesses s; children := c;
     nextPid := nextPid s; emitted := emitted s |}.

Definition set_nextPid (n : nat) (s : System) : System :=
  {| world := world s; activeProcesses := activeProcesses s; children := children s;
     nextPid := n; emitted := emitted s |}.

Definition set_emitted (l : list Emitted) (s : System) : System :=
  {| world := world s; activeProcesses := activeProcesses s; children := children s;
     nextPid := nextPid s; emitted := l |}.

(** Computations of the service: they thread the [System] and may throw;
    the state reached so far survives a throw. *)
Definition M (A : Type) : Type := System -> System * res A.

Definition ret {A} (a : A) : M A := fun s => (s, Ok a).

Definition bind {A B} (m : M A) (k : A -> M B) : M B :=
  fun s =>
    match m s with
    | (s', Ok a) => k a s'
    | (s', Throw) => (s', Throw)
    end.

Notation "x <- m ;; k" := (bind m (fun x => k))
  (at level 20, m at level 99, k at level 200, only parsing).
Notation "'call' m ;; k" := (bind m (fun _ => k))
  (at level 20, m at level 99, k at level 200, only parsing).

(** [try { m } catch { h }] *)
Definition try_catch {A} (m h : M A) : M A :=
  fun s =>
    match m s with
    | (s', Throw) => h s'
    | r => r
    end.

(** A file-system operation that cannot throw. *)
Definition onWorld {A} (f : World -> World * A) : M A :=
  fun s => let '(w, a) := f (world s) in (set_world w s, Ok a).

(** A file-system operation that may throw. *)
Definition onWorldRes {A} (f : World -> World * res A) : M A :=
  fun s => let '(w, r) := f (world s) in (set_world w s, r).

(** [this.emit(...)] *)
Definition emit (e : Emitted) : M unit :=
  fun s => (set_emitted (emitted s ++ [e]) s, Ok tt).

Module ProcessManager.

(** The [initialInfo] object written before the tool is spawned. *)
Definition initialInfo (executionId : string) (request : Request.TestExecutionRequest)
    (w : World) : TestExecution :=
  {| id := executionId; status := RUNNING; startTime := Some (now w);
     comment := Request.comment request;
     averageScore := None; averageRelativeScore := None; acceptedCount := None;
     totalCount := Some (Request.testCaseCount request); maxExecutionTime := None |}.

(** [executePacher] up to the point where it waits for the child: create the
    run directory, write execution_info.json, spawn, register the child.
    (The rename of tools/out is not part of the model.) *)
Definition spawnPacher (request : Request.TestExecutionRequest) (executionId : string) : M unit :=
  fun s =>
    let w := world s in
    let w1 :=
      set_results
        (<[executionId :=
            {| info := Holds (InfoValid (initialInfo executionId request w));
               summary := Repo.summaryFile w executionId |}]> (results w)) w in
    let child := nextPid s in
    (set_nextPid (S child)
       (set_children (<[child := {| owner := executionId; sigkill := false |}]> (children s))
          (set_activeProcesses (<[executionId := child]> (activeProcesses s))
             (set_world w1 s))),
     Ok tt).

(** [killProcess] *)
Definition killProcess (executionId : string) : M bool :=
  fun s =>
    match activeProcesses s !! executionId with
    | Some process =>
        (set_activeProcesses (delete executionId (activeProcesses s))
           (set_children
              (alter (fun c => {| owner := owner c; sigkill := true |}) process (children s)) s),
         Ok true)
    | None => (s, Ok false)
    end.

(** [saveTestResults]: copy the newest summary into the run directory (a
    failed copy is only logged), then [mkdir -p] its case_outputs. *)
Definition saveTestResults (executionId : string) (w : World) : World :=
  match results w !! executionId with
  | Some d =>
      match latestSummary w with
      | Missing => w
      | f => set_results (<[executionId := {| info := info d; summary := f |}]> (results w)) w
      end
  | None =>
      set_results (<[executionId := {| info := Missing; summary := Missing |}]> (results w)) w
  end.

(** The [close] listener, up to [resolve]: returns [success]. *)
Definition onClose (executionId : string) (code : option Z) : M bool :=
  fun s =>
    let s1 := set_activeProcesses (delete executionId (activeProcesses s)) s in
    let success := bool_decide (code = Some 0%Z) in
    if success
    then (set_world (saveTestResults executionId (world s1)) s1, Ok true)
    else (s1, Ok false).

(** The [error] listener, up to [resolve]. *)
Definition onError (executionId : string) : M bool :=
  fun s => (set_activeProcesses (delete executionId (activeProcesses s)) s, Ok false).

End ProcessManager.

(* ===================================================================== *)
(** * ExecutionService                                                    *)
(* ===================================================================== *)

Module ExecutionService.

Definition findById (executionId : string) : M (option TestExecution) :=
  fun s => (s, Repo.findById executionId (world s)).

Definition save (execution : TestExecution) : M unit :=
  onWorld (fun w => (Repo.save execution w, tt)).

(** [emitLog] *)
Definition emitLog (executionId : string) (level : LogLevel) (message : LogText) : M unit :=
  emit (execution_log executionId level message).

(** [updateExecutionStatus] *)
Definition updateExecutionStatus (executionId : string) (st : TestExecutionStatus) : M unit :=
  call onWorldRes (updateStatus executionId st) ;;
  execution <- findById executionId ;;
  match execution with
  | Some e => emit (execution_status executionId st e)
  | None => ret tt
  end.

(** [finalizeExecution].  [recalculateAllRelativeScores] does not throw, so
    the [catch] around it is never entered. *)
Definition finalizeExecution (executionId : string) (st : TestExecutionStatus) : M unit :=
  finalExecution <- findById executionId ;;
  match finalExecution with
  | Some e =>
      let finalExecution := set_status st e in
      call save finalExecution ;;
      match st with
      | COMPLETED =>
          call emitLog executionId info_ Recalculating ;;
          call try_catch
                 (call onWorldRes recalculateAllRelativeScores ;;
                  emitLog executionId info_ RecalculationCompleted)
                 (emitLog executionId error RecalculationFailed) ;;
          updatedExecution <- findById executionId ;;
          match updatedExecution with
          | Some u =>
              let updatedExecution := set_status st u in
              call emit (execution_status executionId st updatedExecution) ;;
              call emit (execution_progress executionId updatedExecution) ;;
              emitLog executionId info_
                (FinalResultPassed (acceptedCount updatedExecution) (totalCount updatedExecution))
          | None => ret tt
          end
      | _ =>
          call emit (execution_status executionId st finalExecution) ;;
          call emit (execution_progress executionId finalExecution) ;;
          emitLog executionId info_ FinalResultFailed
      end
  | None => updateExecutionStatus executionId st
  end.

(** The [catch] block of [executePacher]. *)
Definition executePacherCatch (executionId : string) : M unit :=
  call emitLog executionId info_ RestoringAfterError ;;
  configRestored <- onWorld ConfigService.restoreConfig ;;
  call (if configRestored : bool
        then emitLog executionId info_ RestoredAfterError
        else emitLog executionId warn RestoreFailedAfterError) ;;
  call emitLog executionId error PacherError ;;
  finalizeExecution executionId FAILED.

(** The [.catch] that [startExecution] attaches to the promise of
    [executePacher]; a rejection of the handler itself goes nowhere. *)
Definition fatalCatch (executionId : string) : M unit :=
  try_catch (updateExecutionStatus executionId FAILED) (ret tt).

(** [executePacher], from its start to the wait for the child. *)
Definition executePacherBegin (executionId : string) (request : Request.TestExecutionRequest)
    : M unit :=
  try_catch
    (try_catch
       (call updateExecutionStatus executionId RUNNING ;;
        call emitLog executionId info_ (ExecutionStarted executionId) ;;
        ProcessManager.spawnPacher request executionId)
       (executePacherCatch executionId))
    (fatalCatch executionId).

(** [executePacher], from the resolution of [processManager.executePacher]
    with [success] to its end. *)
Definition executePacherResume (executionId : string) (success : bool) (code : option Z)
    : M unit :=
  try_catch
    (try_catch
       (call emitLog executionId info_ Restoring ;;
        configRestored <- onWorld ConfigService.restoreConfig ;;
        call (if configRestored : bool
              then emitLog executionId info_ Restored
              else emitLog executionId warn RestoreFailed) ;;
        if success
        then
          call emitLog executionId info_ PacherCompleted ;;
          finalizeExecution executionId COMPLETED
        else
          call emitLog executionId error (PacherFailed code) ;;
          finalizeExecution executionId FAILED)
       (executePacherCatch executionId))
    (fatalCatch executionId).

(** [startExecution]; [executionId] is the value [uuidv4()] returns. *)
Definition startExecution (executionId : string) (request : Request.TestExecutionRequest)
    : M string :=
  call emitLog executionId info_ UpdatingConfig ;;
  configUpdated <-
    onWorld (ConfigService.updateConfigForTest
               (Request.testCaseCount request) (Request.startSeed request)) ;;
  call (if configUpdated : bool
        then emitLog executionId info_
               (ConfigUpdated (Request.startSeed request)
                  (Request.startSeed request + Request.testCaseCount request))
        else emitLog executionId warn UpdateConfigFailed) ;;
  initialExecution <-
    (fun s =>
       (s, Ok {| id := executionId; status := IDLE; startTime := Some (now (world s));
                 comment := Request.comment request;
                 averageScore := Some 0%Q; averageRelativeScore := Some 0%Q;
                 acceptedCount := None;
                 totalCount := Some (Request.testCaseCount request);
                 maxExecutionTime := None |})) ;;
  call save initialExecution ;;
  call executePacherBegin executionId request ;;
  ret executionId.

(** [stopExecution] *)
Definition stopExecution (executionId : string) : M unit :=
  killed <- ProcessManager.killProcess executionId ;;
  if killed : bool
  then
    call emitLog executionId info_ KilledByUser ;;
    call emitLog executionId info_ RestoringAfterStop ;;
    configRestored <- onWorld ConfigService.restoreConfig ;;
    call (if configRestored : bool
          then emitLog executionId info_ Restored
          else emitLog executionId warn RestoreFailed) ;;
    updateExecutionStatus executionId CANCELLED
  else ret tt.

End ExecutionService.

(** What happens to the application from outside. *)
Inductive Input :=
  | CallStart (executionId : string) (request : Request.TestExecutionRequest)
  | CallStop (executionId : string)
  | ChildClosed (process : nat) (code : option Z)
  | ChildErrored (process : nat)
  | ToolWroteSummary (f : FileState SummaryFile)
  | ToolWroteBestScores (f : FileState json)
  | ClockAdvanced (t : Z).

Definition set_latestSummary (f : FileState SummaryFile) (w : World) : World :=
  {| configFile := configFile w; backupFile := backupFile w; bestScoresFile := bestScoresFile w;
     latestSummary := f; results := results w; now := now w |}.

Definition set_bestScoresFile (f : FileState json) (w : World) : World :=
  {| configFile := configFile w; backupFile := backupFile w; bestScoresFile := f;
     latestSummary := latestSummary w; results := results w; now := now w |}.

Definition set_now (t : Z) (w : World) : World :=
  {| configFile := configFile w; backupFile := backupFile w; bestScoresFile := bestScoresFile w;
     latestSummary := latestSummary w; results := results w; now := t |}.

(** The end of a child: its listener runs, then the suspended
    [ExecutionService.executePacher] of its owner resumes. *)
Definition childEnded (process : nat) (listener : string -> M bool) (code : option Z) : M unit :=
  fun s =>
    match children s !! process with
    | Some c =>
        (success <- listener (owner c) ;;
         ExecutionService.executePacherResume (owner c) success code)
          (set_children (delete process (children s)) s)
    | None => (s, Ok tt)
    end.

(** One input, handled to completion.  An exception that reaches the caller
    (the IPC layer) leaves the state as it was when it was thrown. *)
Definition step (s : System) (i : Input) : System :=
  match i with
  | CallStart executionId request => fst (ExecutionService.startExecution executionId request s)
  | CallStop executionId => fst (ExecutionService.stopExecution executionId s)
  | ChildClosed process code =>
      fst (childEnded process (fun o => ProcessManager.onClose o code) code s)
  | ChildErrored process =>
      fst (childEnded process ProcessManager.onError None s)
  | ToolWroteSummary f => set_world (set_latestSummary f (world s)) s
  | ToolWroteBestScores f => set_world (set_bestScoresFile f (world s)) s
  | ClockAdvanced t => set_world (set_now t (world s)) s
  end.

Definition steps (s : System) (l : list Input) : System := foldl step s l.

(** The statuses carried by the status events of one run, in order. *)
Definition statusTrail (executionId : string) (l : list Emitted) : list TestExecutionStatus :=
  omap (fun e =>
          match e with
          | execution_status i st _ => if String.eqb i executionId then Some st else None
          | _ => None
          end) l.

Definition terminal (st : TestExecutionStatus) : bool :=
  match st with
  | COMPLETED | FAILED | CANCELLED => true
  | IDLE | RUNNING => false
  end.

(** The status [findById] reports for a run, if it reports one. *)
Definition statusOf (w : World) (executionId : string) : option TestExecutionStatus :=
  match Repo.findById executionId w with
  | Ok (Some e) => Some (status e)
  | _ => None
  end.

(* ===================================================================== *)
(** * Reference definitions used in the statements                        *)
(* ===================================================================== *)

(** A case enters the average when its score is not null and the table has
    an entry for its seed (the condition of the loops). *)
Definition scored (bestScores : gmap Z Q) (c : SummaryCaseRaw) : bool :=
  match score c, bestScores !! seed c with
  | Some _, Some _ => true
  | _, _ => false
  end.

(** The relative score of a case that enters the average. *)
Definition relativeScoreOf (bestScores : gmap Z Q) (objective : Objective)
    (c : SummaryCaseRaw) : number :=
  match score c, bestScores !! seed c with
  | Some s, Some best => ConfigService.calculateRelativeScore (Num s) (Num best) objective
  | _, _ => Num 0
  end.

Definition total (l : list number) : number := foldl num_add (Num 0) l.

(** Arithmetic mean, 0 for the empty list. *)
Definition mean (l : list number) : number :=
  match l with
  | [] => Num 0
  | _ => num_div (total l) (of_Z (Z.of_nat (length l)))
  end.

(** The average as the specification words it: the mean over the cases with
    a positive score and a best score for their seed. *)
Definition positivelyScored (bestScores : gmap Z Q) (c : SummaryCaseRaw) : bool :=
  match score c, bestScores !! seed c with
  | Some s, Some _ => negb (Qle_bool s 0)
  | _, _ => false
  end.

Definition specAverageRelativeScore (bestScores : gmap Z Q) (objective : Objective)
    (cs : list SummaryCaseRaw) : Q :=
  nan_to_zero (mean (map (relativeScoreOf bestScores objective)
                         (filter (fun c => positivelyScored bestScores c = true) cs))).

(** A status trail is monotonic when no terminal status in it is followed
    by a different status (so neither by a non-terminal one nor by another
    terminal one). *)
Fixpoint monotonic (l : list TestExecutionStatus) : bool :=
  match l with
  | [] => true
  | st :: r =>
      (if terminal st
       then forallb (fun st' => bool_decide (st' = st)) r
       else true) && monotonic r
  end.

Definition isStart (i : Input) : bool :=
  match i with
  | CallStart _ _ => true
  | _ => false
  end.

(** [lastFor entries z q]: the entry at position [i] maps seed [z] to [q], and no later entry with
    a numeric value has a key that parses to [z]. *)
Definition lastFor (entries : list (string * json)) (z : Z) (q : Q) : Prop :=
  exists (i : nat) (k : string),
    entries !! i = Some (k, JNumber q) /\ parseInt k = Some z /\
    forall (j : nat) (k' : string) (q' : Q),
      (i < j)%nat -> entries !! j = Some (k', JNumber q') -> parseInt k' <> Some z.

(** Every character is a decimal digit. *)
Fixpoint allDigits (s : string) : bool :=
  match s with
  | EmptyString => true
  | String c r =>
      match digit_val c with
      | Some _ => allDigits r
      | None => false
      end
  end.

(** A key that is an integer written out: decimal digits, at least one,
    behind an optional minus sign, and nothing else. *)
Definition integerKey (k : string) : bool :=
  match k with
  | String "-" r => negb (String.eqb r "") && allDigits r
  | _ => negb (String.eqb k "") && allDigits k
  end.

(** The table of the entries whose key is an integer and whose value is a
    number, every other entry dropped. *)
Definition integerKeyedScores (entries : list (string * json)) : gmap Z Q :=
  foldl ConfigService.addBestScore ∅ (filter (fun e => integerKey (fst e) = true) entries).

(** What a computation emits when it is run from [s]. *)
Definition emittedBy {A} (m : M A) (s : System) : list Emitted :=
  drop (length (emitted s)) (emitted (fst (m s))).

(** The configuration file and its backup are the same in both states. *)
Definition sameConfig (s s' : System) : Prop :=
  configFile (world s') = configFile (world s) /\
  backupFile (world s') = backupFile (world s).

(** [m] leaves the configuration file and its backup alone, whether it
    returns or throws. *)
Definition keepsConfig {A} (m : M A) : Prop :=
  forall s, sameConfig s (fst (m s)).

(** In [s'] the configuration file is the backup that [s] had, and the
    backup is still that one. *)
Definition restoredFrom (s s' : System) : Prop :=
  backupFile (world s') = backupFile (world s) /\
  configFile (world s') = backupFile (world s).

(** Run from a state that has a backup, [m] ends (returning or throwing)
    with the configuration file restored from it. *)
Definition restoresConfig {A} (m : M A) : Prop :=
  forall s, backupFile (world s) <> Missing -> restoredFrom s (fst (m s)).

(** No [startExecution] among the inputs. *)
Definition noStart (l : list Input) : bool :=
  forallb (fun i => negb (isStart i)) l.

(** The record of the run reads with a terminal status. *)
Definition readsTerminal (executionId : string) (s : System) : bool :=
  match statusOf (world s) executionId with
  | Some st => terminal st
  | None => false
  end.

(** Among the events emitted after the first [n], a status event of the run
    carries a terminal status. *)
Definition announcedTerminal (n : nat) (executionId : string) (s : System) : bool :=
  existsb terminal (statusTrail executionId (drop n (emitted s))).

(** The backup holds [c0], and the configuration file holds [c0] too unless
    the run [executionId] neither reads with a terminal status nor has had
    one announced since event [n]. *)
Definition backedUp (c0 : FileState TomlFile) (n : nat)
    (executionId : string) (s : System) : Prop :=
  backupFile (world s) = c0 /\
  (configFile (world s) = c0 \/
   (readsTerminal executionId s = false /\ announcedTerminal n executionId s = false)).

(* ===================================================================== *)
(** * Example inputs                                                      *)
(* ===================================================================== *)

Module Examples.

(** A pahcer_config.toml with a problem section and a test section. *)
Definition config : gmap string (gmap string toml) :=
  {[ "problem" := {[ "problem_name" := TStr "ahc"; "objective" := TStr "Min" ]};
     "test" := {[ "start_seed" := TInt 0; "end_seed" := TInt 50; "threads" := TInt 4 ]} ]}.

(** best_scores.json: two seeds, a key with trailing garbage, a key that is
    no number, a value that is no number. *)
Definition bestScores : json :=
  JObject [("1", JNumber 1000); ("2", JNumber 800); (" 12abc", JNumber 3);
           ("x", JNumber 1); ("7", JString "n/a")].

(** The text of that file. *)
Definition configText : string :=
  "[problem]
problem_name = 'ahc'
objective = 'Min'

[test]
start_seed = 0
end_seed = 50
threads = 4
".

Definition emptyWorld : World :=
  {| configFile := Holds (External configText config); backupFile := Missing;
     bestScoresFile := Holds bestScores;
     latestSummary := Missing; results := ∅; now := 0 |}.

Definition case (sd : Z) (sc : option Q) : SummaryCaseRaw :=
  {| seed := sd; score := sc; execution_time := 0; error_message := None |}.

(** Seed 1 scored 500; seed 2 scored 0 (a failed case). *)
Definition summaryWithZero : SummaryJson :=
  {| case_count := Some 2%Z; total_score := Some 500%Q; max_execution_time := Some (1 # 2);
     summary_comment := None; wa_seeds := Some [2%Z];
     cases := ArrayCases [case 1 (Some 500%Q); case 2 (Some 0%Q)] |}.

(** One scored case, and no [case_count] field. *)
Definition summaryWithoutCount : SummaryJson :=
  {| case_count := None; total_score := Some 500%Q; max_execution_time := None;
     summary_comment := None; wa_seeds := None;
     cases := ArrayCases [case 1 (Some 500%Q)] |}.

(** One case, and an object where the array of cases should be. *)
Definition summaryWithObject : SummaryJson :=
  {| case_count := Some 1%Z; total_score := Some 500%Q; max_execution_time := None;
     summary_comment := None; wa_seeds := None;
     cases := OtherCases |}.

(** best_scores.json: an integer key, then two keys that only start with
    an integer. *)
Definition bestScoresWithPrefixes : json :=
  JObject [("1", JNumber 5); ("1.5", JNumber 3); ("12abc", JNumber 4)].

Definition finished (i : string) : TestExecution :=
  {| id := i; status := COMPLETED; startTime := Some 0%Z; comment := Some "";
     averageScore := Some 0%Q; averageRelativeScore := Some 0%Q;
     acceptedCount := Some 0%Z; totalCount := Some 0%Z; maxExecutionTime := Some 0%Q |}.

(** A history of one finished run whose summary has no [case_count]. *)
Definition historyWithoutCount : World :=
  {| configFile := Holds (External configText config); backupFile := Missing;
     bestScoresFile := Holds bestScores;
     latestSummary := Missing;
     results := {[ "run-1" := {| info := Holds (InfoValid (finished "run-1"));
                                 summary := Holds (SummaryData summaryWithoutCount) |} ]};
     now := 0 |}.

(** A results directory with an empty run directory. *)
Definition worldWithEmptyDir : World :=
  {| configFile := Holds (External configText config); backupFile := Missing;
     bestScoresFile := Holds bestScores;
     latestSummary := Missing;
     results := {[ "run-1" := {| info := Missing; summary := Missing |} ]};
     now := 0 |}.

(** The record of a run that was started at time [t] and is still running. *)
Definition running (i : string) (t : Z) : TestExecution :=
  {| id := i; status := RUNNING; startTime := Some t; comment := Some "baseline";
     averageScore := None; averageRelativeScore := None; acceptedCount := None;
     totalCount := Some 100%Z; maxExecutionTime := None |}.

(** A finished run started at time [t]. *)
Definition finishedAt (i : string) (t : Z) : TestExecution :=
  {| id := i; status := COMPLETED; startTime := Some t; comment := Some "";
     averageScore := Some 0%Q; averageRelativeScore := Some 0%Q;
     acceptedCount := Some 0%Z; totalCount := Some 0%Z; maxExecutionTime := Some 0%Q |}.

(** The oldest run, run-0, has a summary without [case_count]; run-1 was
    started last, its tool has written the summary, and its record still
    says RUNNING. *)
Definition historyAtClose : World :=
  {| configFile := Holds (External configText config); backupFile := Missing;
     bestScoresFile := Holds bestScores;
     latestSummary := Missing;
     results :=
       {[ "run-0" := {| info := Holds (InfoValid (finishedAt "run-0" 0));
                        summary := Holds (SummaryData summaryWithoutCount) |};
          "run-1" := {| info := Holds (InfoValid (running "run-1" 10));
                        summary := Holds (SummaryData summaryWithZero) |} ]};
     now := 20 |}.

(** The same history with a run in between whose summary has an object
    for [cases]. *)
Definition historyWithObject : World :=
  set_results
    (<["run-x" := {| info := Holds (InfoValid (finishedAt "run-x" 5));
                     summary := Holds (SummaryData summaryWithObject) |}]>
       (results historyAtClose))
    historyAtClose.

Definition idle : System :=
  {| world := emptyWorld; activeProcesses := ∅; children := ∅; nextPid := 0; emitted := [] |}.

Definition baseline : Request.TestExecutionRequest :=
  {| Request.comment := Some "baseline"; Request.shuffle := false;
     Request.freezeBestScores := false; Request.testCaseCount := 100; Request.startSeed := 0 |}.

Definition second : Request.TestExecutionRequest :=
  {| Request.comment := Some "second"; Request.shuffle := false;
     Request.freezeBestScores := false; Request.testCaseCount := 10; Request.startSeed := 5 |}.

End Examples.

Module Traces.

(** The application after [startExecution] for run-1 has spawned the tool. *)
Definition started : System :=
  step Examples.idle (CallStart "run-1" Examples.baseline).

(** run-1 is started, stopped by the user, and then its child closes. *)
Definition stoppedThenClosed : list Input :=
  [CallStart "run-1" Examples.baseline; CallStop "run-1"; ChildClosed 0 None].

(** run-2 is started while run-1 is running; then run-1 ends with code 0. *)
Definition overlapping : list Input :=
  [CallStart "run-1" Examples.baseline; CallStart "run-2" Examples.second;
   ChildClosed 0 (Some 0%Z)].

(** run-1 is stopped by the user; its child closes; the tool had written a
    summary in between. *)
Definition afterStart : list Input :=
  [ToolWroteSummary (Holds (SummaryData Examples.summaryWithZero)); CallStop "run-1";
   ChildClosed 0 None].

(** The record of run-1 once it is marked COMPLETED (it has no summary). *)
Definition completedRecord : TestExecution :=
  {| id := "run-1"; status := COMPLETED; startTime := Some 0%Z; comment := Some "baseline";
     averageScore := None; averageRelativeScore := None; acceptedCount := None;
     totalCount := Some 100%Z; maxExecutionTime := None |}.

(** The application when the tool of run-1 has exited with code 0 and the
    results are stored, before the run is finalized. *)
Definition atClose : System :=
  {| world := Examples.historyAtClose; activeProcesses := ∅; children := ∅;
     nextPid := 1; emitted := [] |}.

(** The same over the history with the object for [cases]. *)
Definition atCloseWithObject : System :=
  {| world := Examples.historyWithObject; activeProcesses := ∅; children := ∅;
     nextPid := 1; emitted := [] |}.

End Traces.

(* ===================================================================== *)
(** * Further operations of the services                                  *)
(* ===================================================================== *)

From Stdlib Require DecimalNat.

(** ** Strings of numbers *)

(** [String(z)] for an integer. *)
Definition toString (z : Z) : string :=
  if (z <? 0)%Z then String "-" (index_key (Z.to_nat (- z))) else index_key (Z.to_nat z).

Fixpoint zeros (k : nat) : string :=
  match k with
  | O => EmptyString
  | S k' => String "0" (zeros k')
  end.

(** [s.padStart(4, '0')] *)
Definition padStart4 (s : string) : string :=
  zeros (4 - String.length s) ++ s.

(** The name of a case output file: [String(seed).padStart(4, '0')] followed
    by the extension. *)
Definition caseFileName (caseNum : Z) : string :=
  padStart4 (toString caseNum) ++ ".txt".

Definition hex_val (c : ascii) : option Z :=
  let n := nat_of_ascii c in
  if (48 <=? n)%nat && (n <=? 57)%nat then Some (Z.of_nat (n - 48))
  else if (97 <=? n)%nat && (n <=? 102)%nat then Some (Z.of_nat (n - 87))
  else if (65 <=? n)%nat && (n <=? 70)%nat then Some (Z.of_nat (n - 55))
  else None.

Fixpoint hex_digits (s : string) (acc : option Z) : option Z :=
  match s with
  | String c r =>
      match hex_val c with
      | Some d => hex_digits r (Some (16 * default 0%Z acc + d)%Z)
      | None => acc
      end
  | EmptyString => acc
  end.

(** The digits of [parseInt(s)] without a radix, after white space and sign:
    base 16 behind a 0x or 0X prefix, base 10 otherwise. *)
Definition unsignedAuto (t : string) : option Z :=
  match t with
  | String "0" (String "x" r) => hex_digits r None
  | String "0" (String "X" r) => hex_digits r None
  | _ => digits t None
  end.

(** [parseInt(s)] without a radix; [None] stands for NaN. *)
Definition parseIntAuto (s : string) : option Z :=
  match skip_ws s with
  | String "-" r => Z.opp <$> unsignedAuto r
  | String "+" r => unsignedAuto r
  | t => unsignedAuto t
  end.

(** [file.endsWith('.txt')] together with [path.basename(file, '.txt')]:
    the name without the extension, for a name that ends with it. *)
Fixpoint txtStem (file : string) : option string :=
  if String.eqb file ".txt" then Some EmptyString
  else
    match file with
    | String c r => String c <$> txtStem r
    | EmptyString => None
    end.

(** ** ConfigService.updateConfig *)

Module ConfigUpdate.

(** [{ ...current.section, ...update.section }]: the keys of both, the
    update winning. *)
Definition mergeSection (current update : option (gmap string toml)) : gmap string toml :=
  default ∅ update ∪ default ∅ current.

(** [mergeConfig] *)
Definition mergeConfig (current update : gmap string (gmap string toml))
    : gmap string (gmap string toml) :=
  <["general" := mergeSection (current !! "general") (update !! "general")]>
    (<["problem" := mergeSection (current !! "problem") (update !! "problem")]>
       (<["test" := mergeSection (current !! "test") (update !! "test")]> ∅)).

(** [updateConfig]: read, merge, write, read back.  The write cannot fail
    in this model, so the [catch] arm is never entered. *)
Definition updateConfig (config : gmap string (gmap string toml)) (w : World)
    : World * gmap string (gmap string toml) :=
  let currentConfig := ConfigService.getConfig w in
  let updatedConfig := mergeConfig currentConfig config in
  let w' := set_configFile (Holds (Written updatedConfig)) w in
  (w', ConfigService.getConfig w').

End ConfigUpdate.

(** ** ScoreAnalysisService: enrichment *)

Inductive TestCaseStatus := waiting | running | completed | failed.

Module Case.
(** [TestCase] (schemas/execution.ts) *)
Record TestCase := {
  seed : Z;
  score : option Q;
  relativeScore : option number;
  status : TestCaseStatus;
  executionTime : Q;
}.
End Case.

(** Truthiness of an optional string. *)
Definition truthy (s : option string) : bool :=
  match s with
  | Some t => negb (String.eqb t "")
  | None => false
  end.

Module Enrich.

(** The callback of the [map] in [enrichTestCasesWithRelativeScore]. *)
Definition enrichCase (bestScores : gmap Z Q) (objective : Objective) (c : SummaryCaseRaw)
    : Case.TestCase :=
  let best := bestScores !! seed c in
  let rel :=
    match score c, best with
    | Some s, Some b => Some (ConfigService.calculateRelativeScore (Num s) (Num b) objective)
    | _, _ => None
    end in
  {| Case.seed := seed c;
     Case.score := score c;
     Case.relativeScore := rel;
     Case.status := if truthy (error_message c) then failed else completed;
     Case.executionTime := execution_time c |}.

(** [enrichTestCasesWithRelativeScore]; the closing [filter(Boolean)] keeps
    every element, all of them being objects. *)
Definition enrichTestCasesWithRelativeScore (testCaseData : list SummaryCaseRaw) (w : World)
    : list Case.TestCase :=
  let '(bestScores, objective) := ScoreAnalysisService.loadConfig w in
  map (enrichCase bestScores objective) testCaseData.

(** [enrichExecutionWithRelativeScore] *)
Definition enrichExecutionWithRelativeScore (execution : TestExecution)
    (summaryData : option SummaryJson) (w : World) : TestExecution :=
  match summaryData with
  | Some s =>
      match arrayOf (cases s) with
      | Some cs =>
          let '(bestScores, objective) := ScoreAnalysisService.loadConfig w in
          let avg :=
            ScoreAnalysisService.meanOrZero
              (ScoreAnalysisService.sumRelative bestScores objective cs) in
          set_averageRelativeScore (Some (nan_to_zero avg)) execution
      | None => execution
      end
  | None => execution
  end.

End Enrich.

(** ** ExecutionRepository: the remaining operations *)

(** [Partial<TestExecution>]: for each field, whether it is given. *)
Record PartialExecution := {
  p_id : option string;
  p_status : option TestExecutionStatus;
  p_startTime : option (option Z);
  p_comment : option (option string);
  p_averageScore : option (option Q);
  p_averageRelativeScore : option (option Q);
  p_acceptedCount : option (option Z);
  p_totalCount : option (option Z);
  p_maxExecutionTime : option (option Q);
}.

(** [Object.assign(execution, data)] *)
Definition assign (execution : TestExecution) (data : PartialExecution) : TestExecution :=
  {| id := default (id execution) (p_id data);
     status := default (status execution) (p_status data);
     startTime := default (startTime execution) (p_startTime data);
     comment := default (comment execution) (p_comment data);
     averageScore := default (averageScore execution) (p_averageScore data);
     averageRelativeScore := default (averageRelativeScore execution) (p_averageRelativeScore data);
     acceptedCount := default (acceptedCount execution) (p_acceptedCount data);
     totalCount := default (totalCount execution) (p_totalCount data);
     maxExecutionTime := default (maxExecutionTime execution) (p_maxExecutionTime data) |}.

Module RepositoryOps.

(** The record [updateProgress] starts from when the run is not found. *)
Definition fresh (i : string) (w : World) : TestExecution :=
  {| id := i; status := RUNNING; startTime := Some (now w); comment := None;
     averageScore := Some 0%Q; averageRelativeScore := Some 0%Q;
     acceptedCount := None; totalCount := None; maxExecutionTime := None |}.

(** [updateProgress] *)
Definition updateProgress (i : string) (data : PartialExecution) (w : World) : World * res unit :=
  match Repo.findById i w with
  | Throw => (w, Throw)
  | Ok execution => (Repo.save (assign (default (fresh i w) execution) data) w, Ok tt)
  end.

(** [delete]: [fs.rm] with [recursive] and [force]. *)
Definition delete (i : string) (w : World) : World :=
  set_results (base.delete i (results w)) w.

(** [findTestCasesByExecutionId] *)
Definition findTestCasesByExecutionId (i : string) (w : World) : res (list Case.TestCase) :=
  match Repo.readJsonFile (Repo.summaryFile w i) with
  | Throw => Throw
  | Ok (Some (SummaryData s)) =>
      match arrayOf (cases s) with
      | Some cs => Ok (Enrich.enrichTestCasesWithRelativeScore cs w)
      | None => Ok []
      end
  | Ok _ => Ok []
  end.

(** [findTestCaseResult]; [caseOutputs] is the case_outputs directory of the
    run, file name to content. *)
Definition findTestCaseResult (i : string) (sd : Z) (w : World)
    (caseOutputs : gmap string string) : res (option string) :=
  match Repo.readJsonFile (Repo.summaryFile w i) with
  | Throw => Throw
  | Ok (Some (SummaryData s)) =>
      match arrayOf (cases s) with
      | Some cs =>
          if existsb (fun c => (seed c =? sd)%Z) cs
          then Ok (caseOutputs !! caseFileName sd)
          else Ok None
      | None => Ok None
      end
  | Ok _ => Ok None
  end.

End RepositoryOps.


(** ** ProcessManager: case outputs and the scratch directory *)

Module CaseOutputs.

(** One iteration of the copy loop of [saveTestResults] over tools/out: a
    file whose name ends in the extension and whose stem [parseInt] reads is
    copied under the fixed-width name of that number. *)
Definition copyCaseOutput (dest : gmap string string) (file : string * string)
    : gmap string string :=
  match txtStem (fst file) with
  | Some stem =>
      match parseIntAuto stem with
      | Some caseNum => <[caseFileName caseNum := snd file]> dest
      | None => dest
      end
  | None => dest
  end.

(** The loop over [readdir(outDir)], in directory order; a missing tools/out
    makes [readdir] throw, which is swallowed.  Every entry is a regular
    file. *)
Definition copyCaseOutputs (outDir : option (list (string * string)))
    (dest : gmap string string) : gmap string string :=
  match outDir with
  | Some files => foldl copyCaseOutput dest files
  | None => dest
  end.

End CaseOutputs.

Module Scratch.

(** tools/out and tools/out_bak, each absent or a directory with content. *)
Record Dirs (D : Type) := {
  out : option D;
  out_bak : option D;
}.
Arguments out {D} _.
Arguments out_bak {D} _.

(** [backupOutDirectory]: nothing when tools/out is absent; otherwise any
    tools/out_bak is removed and tools/out is renamed to it. *)
Definition backupOutDirectory {D} (s : Dirs D) : Dirs D :=
  match out s with
  | None => s
  | Some d => {| out := None; out_bak := Some d |}
  end.

(** [restoreOutDirectory]: nothing when tools/out_bak is absent; otherwise
    any tools/out is removed and tools/out_bak is renamed to it. *)
Definition restoreOutDirectory {D} (s : Dirs D) : Dirs D :=
  match out_bak s with
  | None => s
  | Some b => {| out := Some b; out_bak := None |}
  end.

(** What the tool leaves in tools/out during a run. *)
Definition toolWrote {D} (d : option D) (s : Dirs D) : Dirs D :=
  {| out := d; out_bak := out_bak s |}.

End Scratch.

(** ** Auxiliary notions for the statements on file names and tables *)

(** The case number [saveTestResults] reads from a file name of tools/out. *)
Definition caseNumber (file : string) : option Z :=
  match txtStem file with
  | Some stem => parseIntAuto stem
  | None => None
  end.

(** The content of the last file of a directory listing that carries case
    number [n]. *)
Fixpoint lastOutput (files : list (string * string)) (n : Z) : option string :=
  match files with
  | [] => None
  | f :: r =>
      match lastOutput r n with
      | Some c => Some c
      | None => if bool_decide (caseNumber (fst f) = Some n) then Some (snd f) else None
      end
  end.

(** All file names of a listing that carry a case number carry a
    non-negative one. *)
Definition nonNegativeCases (files : list (string * string)) : Prop :=
  forall f m, f ∈ files -> caseNumber (fst f) = Some m -> (0 <= m)%Z.

(** A best-score table written out as a JSON object keyed by the decimal
    renderings of its seeds. *)
Definition tableToJson (l : list (Z * Q)) : json :=
  JObject (map (fun e => (toString (fst e), JNumber (snd e))) l).



Module MoreExamples.

(** A listing of tools/out: two names for case 1 and a file that is no
    case output. *)
Definition outFiles : list (string * string) :=
  [("1.txt", "first"); ("0001.txt", "second"); ("notes.md", "none")].

Definition table : list (Z * Q) := [(1%Z, 1000%Q); (2%Z, 800%Q)].

Definition tableWorld : World :=
  set_bestScoresFile (Holds (tableToJson table)) Examples.emptyWorld.

End MoreExamples.

(* ===================================================================== *)
(** * ConfigService: relative score, test window                          *)
(* ===================================================================== *)

Section RelativeScore.

Lemma Qle_bool_false_of_pos (q : Q) : (0 < q)%Q -> Qle_bool q 0 = false.
Proof.
  intros Hq. destruct (Qle_bool q 0) eqn:E; [|reflexivity].
  apply Qle_bool_iff in E. exfalso. exact (Qlt_not_le _ _ Hq E).
Qed.

Lemma Qeq_bool_false_of_pos (q : Q) : (0 < q)%Q -> Qeq_bool q 0 = false.
Proof.
  intros Hq. destruct (Qeq_bool q 0) eqn:E; [|reflexivity].
  apply Qeq_bool_iff in E. rewrite E in Hq. exfalso. exact (Qlt_irrefl _ Hq).
Qed.

(** C3.  With positive score and best score, [calculateRelativeScore] is
    score/best under Max and best/score under Min; as soon as one of the two
    inputs is [<= 0] it is 0, whatever the objective. *)
Theorem calculateRelativeScore_spec :
  (forall s b : Q, (0 < s)%Q -> (0 < b)%Q ->
     ConfigService.calculateRelativeScore (Num s) (Num b) Max = Num (s / b) /\
     ConfigService.calculateRelativeScore (Num s) (Num b) Min = Num (b / s)) /\
  (forall (score bestScore : number) (objective : Objective),
     num_le score (Num 0) = true \/ num_le bestScore (Num 0) = true ->
     ConfigService.calculateRelativeScore score bestScore objective = Num 0).
Proof.
  split.
  - intros s b Hs Hb. unfold ConfigService.calculateRelativeScore, num_le, num_div.
    rewrite (Qle_bool_false_of_pos s Hs), (Qle_bool_false_of_pos b Hb).
    rewrite (Qeq_bool_false_of_pos s Hs), (Qeq_bool_false_of_pos b Hb).
    split; reflexivity.
  - intros score bestScore objective [H | H];
      unfold ConfigService.calculateRelativeScore; rewrite H.
    + reflexivity.
    + rewrite orb_true_r. reflexivity.
Qed.

Lemma calculateRelativeScore_spec_witness :
  (ConfigService.calculateRelativeScore (Num 500) (Num 1000) Max = Num (500 / 1000) /\
   ConfigService.calculateRelativeScore (Num 500) (Num 1000) Min = Num (1000 / 500)) /\
  ConfigService.calculateRelativeScore (Num (-1)) (Num 1000) Min = Num 0.
Proof.
  split.
  - apply (proj1 calculateRelativeScore_spec 500%Q 1000%Q); reflexivity.
  - apply (proj2 calculateRelativeScore_spec (Num (-1)) (Num 1000) Min).
    left. reflexivity.
Defined.

End RelativeScore.

Section TestWindow.

(** C7.  [updateConfigForTest] writes [start_seed = startSeed] and
    [end_seed = startSeed + testCaseCount] into the test section; every other
    key of the test section and every other section read back from the file
    is what [getConfig] read before the call, and no other file changes. *)
Theorem updateConfigForTest_frame (w : World) (testCaseCount startSeed : Z) :
  (0 <= startSeed)%Z -> (1 <= testCaseCount)%Z ->
  let w' := fst (ConfigService.updateConfigForTest testCaseCount startSeed w) in
  let before := ConfigService.getConfig w in
  let after := ConfigService.getConfig w' in
  (exists test : gmap string toml,
      after !! "test" = Some test /\
      test !! "start_seed" = Some (TInt startSeed) /\
      test !! "end_seed" = Some (TInt (startSeed + testCaseCount)) /\
      forall key : string, key <> "start_seed" -> key <> "end_seed" ->
        test !! key = default ∅ (before !! "test") !! key) /\
  (forall section : string, section <> "test" -> after !! section = before !! section) /\
  bestScoresFile w' = bestScoresFile w /\
  latestSummary w' = latestSummary w /\
  results w' = results w.
Proof.
  intros _ _ w' before after.
  assert (Hbefore : ConfigService.getConfig (fst (ConfigService.backupConfig w)) = before).
  { subst before. unfold ConfigService.backupConfig, ConfigService.getConfig.
    destruct (configFile w) eqn:E; simpl; rewrite ?E; reflexivity. }
  assert (Hafter : after = ConfigService.withTestWindow testCaseCount startSeed before).
  { subst after w'. unfold ConfigService.updateConfigForTest. simpl.
    rewrite Hbefore. reflexivity. }
  split; [|split; [|split; [|split]]].
  - exists (<["end_seed" := TInt (startSeed + testCaseCount)]>
              (<["start_seed" := TInt startSeed]> (default ∅ (before !! "test")))).
    rewrite Hafter. unfold ConfigService.withTestWindow.
    split; [apply lookup_insert_eq|].
    split; [rewrite lookup_insert_ne by discriminate; apply lookup_insert_eq|].
    split; [apply lookup_insert_eq|].
    intros key H1 H2. rewrite !lookup_insert_ne by congruence. reflexivity.
  - intros section Hs. rewrite Hafter. unfold ConfigService.withTestWindow.
    rewrite lookup_insert_ne by congruence. reflexivity.
  - subst w'. unfold ConfigService.updateConfigForTest, ConfigService.backupConfig.
    destruct (configFile w); reflexivity.
  - subst w'. unfold ConfigService.updateConfigForTest, ConfigService.backupConfig.
    destruct (configFile w); reflexivity.
  - subst w'. unfold ConfigService.updateConfigForTest, ConfigService.backupConfig.
    destruct (configFile w); reflexivity.
Qed.

Lemma updateConfigForTest_frame_witness :
  exists test : gmap string toml,
    ConfigService.getConfig
      (fst (ConfigService.updateConfigForTest 100 0 Examples.emptyWorld)) !! "test" = Some test /\
    test !! "start_seed" = Some (TInt 0) /\
    test !! "end_seed" = Some (TInt 100) /\
    test !! "threads" = Some (TInt 4).
Proof.
  destruct (updateConfigForTest_frame Examples.emptyWorld 100 0 ltac:(lia) ltac:(lia))
    as [[test (H1 & H2 & H3 & H4)] _].
  exists test. split; [exact H1|]. split; [exact H2|]. split; [exact H3|].
  rewrite H4 by discriminate. reflexivity.
Defined.

End TestWindow.

(* ===================================================================== *)
(** * ProcessManager.killProcess and ExecutionService.stopExecution       *)
(* ===================================================================== *)

(** C9.  Without a tracked process for the id, [killProcess] returns false
    and [stopExecution] returns with the whole state as it was (no restore
    of the configuration, no status written, nothing emitted).  With a
    tracked process, [killProcess] returns true, has sent SIGKILL to that
    child and has removed the id from the table, and nothing else changed. *)
Theorem killProcess_stopExecution_spec (s : System) (executionId : string) :
  match activeProcesses s !! executionId with
  | None =>
      ProcessManager.killProcess executionId s = (s, Ok false) /\
      ExecutionService.stopExecution executionId s = (s, Ok tt)
  | Some process =>
      exists s', ProcessManager.killProcess executionId s = (s', Ok true) /\
        activeProcesses s' = delete executionId (activeProcesses s) /\
        activeProcesses s' !! executionId = None /\
        children s' !! process =
          (fun c => {| owner := owner c; sigkill := true |}) <$> children s !! process /\
        (forall other, other <> process -> children s' !! other = children s !! other) /\
        world s' = world s /\ emitted s' = emitted s /\ nextPid s' = nextPid s
  end.
Proof.
  destruct (activeProcesses s !! executionId) as [process|] eqn:E.
  - eexists. unfold ProcessManager.killProcess. rewrite E.
    split; [reflexivity|]. simpl.
    split; [reflexivity|].
    split; [apply lookup_delete_eq|].
    split; [rewrite lookup_alter; case_decide; [reflexivity|congruence]|].
    split; [|auto].
    intros other Hne. rewrite lookup_alter. case_decide; [congruence|reflexivity].
  - unfold ExecutionService.stopExecution, bind, ProcessManager.killProcess.
    rewrite E. split; reflexivity.
Qed.

(* ===================================================================== *)
(** * ExecutionRepository.findById                                        *)
(* ===================================================================== *)

Lemma dirExists_false_files (w : World) (i : string) :
  Repo.dirExists w i = false ->
  Repo.infoFile w i = Missing /\ Repo.summaryFile w i = Missing.
Proof.
  unfold Repo.dirExists, Repo.infoFile, Repo.summaryFile.
  destruct (results w !! i); [discriminate|auto].
Qed.

(** C6, as the code has it.  [findById] returns null when the run directory
    does not exist, and also when the directory exists but holds neither an
    execution_info.json the schema accepts nor a summary.json with a truthy
    value; in every other case it returns a record or throws (on a file that
    is not JSON).  The result does not tell a missing directory from an
    empty one. *)
Theorem findById_null_iff (w : World) (i : string) :
  Repo.findById i w = Ok None <->
  (Repo.dirExists w i = false \/
   ((Repo.infoFile w i = Missing \/ Repo.infoFile w i = Holds InfoRejected) /\
    (Repo.summaryFile w i = Missing \/ Repo.summaryFile w i = Holds SummaryFalsy))).
Proof.
  unfold Repo.findById. split.
  - destruct (Repo.dirExists w i) eqn:D; [|auto].
    intros H. right.
    destruct (Repo.infoFile w i) as [|raw|[|e]]; simpl in H; try discriminate;
      destruct (Repo.summaryFile w i) as [|raw'|[|sm]]; simpl in H; try discriminate; auto.
  - intros [D | [[Hi | Hi] [Hs | Hs]]].
    + destruct (dirExists_false_files w i D) as [-> ->]. simpl. rewrite D. reflexivity.
    + rewrite Hi, Hs. simpl. destruct (Repo.dirExists w i); reflexivity.
    + rewrite Hi, Hs. simpl. destruct (Repo.dirExists w i); reflexivity.
    + rewrite Hi, Hs. simpl. destruct (Repo.dirExists w i); reflexivity.
    + rewrite Hi, Hs. simpl. destruct (Repo.dirExists w i); reflexivity.
Qed.

(** C6, counterexample.  The directory of run-1 exists and is empty; the
    directory of run-2 does not exist; [findById] answers null for both. *)
Lemma findById_empty_dir_is_null :
  Repo.dirExists Examples.worldWithEmptyDir "run-1" = true /\
  Repo.findById "run-1" Examples.worldWithEmptyDir = Ok None /\
  Repo.dirExists Examples.worldWithEmptyDir "run-2" = false /\
  Repo.findById "run-2" Examples.worldWithEmptyDir = Ok None /\
  ~ (forall w i, Repo.findById i w = Ok None <-> Repo.dirExists w i = false).
Proof.
  split; [reflexivity|]. split; [reflexivity|]. split; [reflexivity|].
  split; [reflexivity|].
  intros H. specialize (H Examples.worldWithEmptyDir "run-1").
  destruct H as [H _]. specialize (H eq_refl). discriminate H.
Qed.

(* ===================================================================== *)
(** * ConfigService.getBestScores                                         *)
(* ===================================================================== *)

Section BestScores.

Lemma lastFor_nil (z : Z) (q : Q) : ~ lastFor [] z q.
Proof. intros (i & k & H & _). rewrite lookup_nil in H. discriminate. Qed.

Lemma lastFor_snoc_hit (es : list (string * json)) (k : string) (q0 : Q) (z : Z) (q : Q) :
  parseInt k = Some z ->
  lastFor (es ++ [(k, JNumber q0)]) z q <-> q = q0.
Proof.
  intros Hk. split.
  - intros (i & k1 & Hi & Hk1 & Hlast).
    destruct (decide (i < length es)%nat) as [Hlt|Hge].
    + exfalso. apply (Hlast (length es) k q0 Hlt); [|exact Hk].
      rewrite lookup_app_r by lia. rewrite Nat.sub_diag. reflexivity.
    + rewrite lookup_app_r in Hi by lia.
      destruct (i - length es)%nat as [|n] eqn:E; simpl in Hi; [congruence|].
      rewrite lookup_nil in Hi. discriminate.
  - intros ->. exists (length es), k. split; [|split; [exact Hk|]].
    + rewrite lookup_app_r by lia. rewrite Nat.sub_diag. reflexivity.
    + intros j k' q' Hj Hl. apply lookup_lt_Some in Hl.
      rewrite length_app in Hl. simpl in Hl. lia.
Qed.

Lemma lastFor_snoc_miss (es : list (string * json)) (e : string * json) (z : Z) (q : Q) :
  (forall q0, snd e = JNumber q0 -> parseInt (fst e) <> Some z) ->
  lastFor (es ++ [e]) z q <-> lastFor es z q.
Proof.
  intros Hmiss. split.
  - intros (i & k & Hi & Hk & Hlast).
    destruct (decide (i < length es)%nat) as [Hlt|Hge].
    + exists i, k. rewrite lookup_app_l in Hi by exact Hlt.
      split; [exact Hi|]. split; [exact Hk|].
      intros j k' q' Hj Hl. apply (Hlast j k' q' Hj).
      rewrite lookup_app_l; [exact Hl|]. apply lookup_lt_Some in Hl. exact Hl.
    + exfalso. rewrite lookup_app_r in Hi by lia.
      destruct (i - length es)%nat as [|n] eqn:E; simpl in Hi.
      * injection Hi as ->. exact (Hmiss q eq_refl Hk).
      * rewrite lookup_nil in Hi. discriminate.
  - intros (i & k & Hi & Hk & Hlast).
    exists i, k. split; [|split; [exact Hk|]].
    + rewrite lookup_app_l; [exact Hi|]. apply lookup_lt_Some in Hi. exact Hi.
    + intros j k' q' Hj Hl.
      destruct (decide (j < length es)%nat) as [Hlt|Hge].
      * rewrite lookup_app_l in Hl by exact Hlt. exact (Hlast j k' q' Hj Hl).
      * rewrite lookup_app_r in Hl by lia.
        destruct (j - length es)%nat as [|n] eqn:E; simpl in Hl.
        -- injection Hl as ->. exact (Hmiss q' eq_refl).
        -- rewrite lookup_nil in Hl. discriminate.
Qed.

Lemma foldl_addBestScore_lookup (entries : list (string * json)) (z : Z) (q : Q) :
  foldl ConfigService.addBestScore ∅ entries !! z = Some q <-> lastFor entries z q.
Proof.
  induction entries as [|e es IH] using rev_ind.
  - simpl. rewrite lookup_empty. split; [discriminate|]. intros H.
    destruct (lastFor_nil z q H).
  - rewrite foldl_app. simpl. unfold ConfigService.addBestScore at 1.
    destruct e as [k v]. simpl.
    destruct (parseInt k) as [seed0|] eqn:Hk.
    + destruct v as [| b | q0 | s0 | l | o];
        try (rewrite IH; symmetry; apply lastFor_snoc_miss; simpl; intros q1 Hq1; discriminate Hq1).
      destruct (decide (seed0 = z)) as [->|Hne].
      * rewrite lookup_insert_eq. rewrite (lastFor_snoc_hit es k q0 z q Hk).
        split; intros H; congruence.
      * rewrite lookup_insert_ne by exact Hne. rewrite IH. symmetry.
        apply lastFor_snoc_miss. simpl. intros q1 _. rewrite Hk. congruence.
    + rewrite IH. symmetry. apply lastFor_snoc_miss. simpl. intros q1 _.
      rewrite Hk. discriminate.
Qed.

(** C10.  [getBestScores] always returns a table.  When the file is missing,
    is not JSON, or holds [null] (on which [Object.entries] throws), the
    table is empty.  Otherwise the table maps a seed to a score exactly when
    some entry has a key that [parseInt] reads as that seed and a numeric
    value equal to that score, the last such entry deciding; entries whose
    key [parseInt] rejects or whose value is no number leave no trace. *)
Theorem getBestScores_spec (w : World) :
  match bestScoresFile w with
  | Missing | Garbled _ => ConfigService.getBestScores w = ∅
  | Holds content =>
      match Object_entries content with
      | Throw => ConfigService.getBestScores w = ∅
      | Ok entries =>
          forall (z : Z) (q : Q),
            ConfigService.getBestScores w !! z = Some q <-> lastFor entries z q
      end
  end.
Proof.
  unfold ConfigService.getBestScores, ConfigService.readBestScores.
  destruct (bestScoresFile w) as [|raw|content]; try reflexivity.
  destruct (Object_entries content) as [entries|]; [|reflexivity].
  intros z q. apply foldl_addBestScore_lookup.
Qed.

(** C10, counterexample.  The file holds the keys 1, 1.5 and 12abc, each
    with a number.  [parseInt] reads 1.5 as seed 1 and 12abc as seed 12: the
    table has seed 12, which no integer key names, and under seed 1 the
    score of key 1.5, which has overwritten the score of the integer key. *)
Lemma getBestScores_keeps_keys_with_integer_prefix :
  let w := set_bestScoresFile (Holds Examples.bestScoresWithPrefixes) Examples.emptyWorld in
  let entries := [("1", JNumber 5); ("1.5", JNumber 3); ("12abc", JNumber 4)] in
  Object_entries Examples.bestScoresWithPrefixes = Ok entries /\
  map (fun e => integerKey (fst e)) entries = [true; false; false] /\
  ConfigService.getBestScores w !! 12%Z = Some 4%Q /\
  integerKeyedScores entries !! 12%Z = None /\
  ConfigService.getBestScores w !! 1%Z = Some 3%Q /\
  integerKeyedScores entries !! 1%Z = Some 5%Q /\
  ConfigService.getBestScores w <> integerKeyedScores entries.
Proof.
  cbv zeta. repeat split; try (vm_compute; reflexivity).
  intros H. apply (f_equal (fun m => m !! 12%Z)) in H. vm_compute in H. discriminate H.
Qed.

End BestScores.

(* ===================================================================== *)
(** * ScoreAnalysisService: average relative score                        *)
(* ===================================================================== *)

Section AverageRelativeScore.

Variables (bestScores : gmap Z Q) (objective : Objective).

Lemma addCase_scored (c : SummaryCaseRaw) (t : number) (n : nat) :
  scored bestScores c = true ->
  ScoreAnalysisService.addCase bestScores objective (t, n) c =
  (num_add t (relativeScoreOf bestScores objective c), S n).
Proof.
  unfold scored, ScoreAnalysisService.addCase, relativeScoreOf.
  destruct (score c); [destruct (bestScores !! seed c)|]; intros H;
    try discriminate H; reflexivity.
Qed.

Lemma addCase_unscored (c : SummaryCaseRaw) (acc : number * nat) :
  scored bestScores c = false ->
  ScoreAnalysisService.addCase bestScores objective acc c = acc.
Proof.
  unfold scored, ScoreAnalysisService.addCase.
  destruct (score c); [destruct (bestScores !! seed c)|]; intros H;
    try discriminate H; reflexivity.
Qed.

Lemma foldl_addCase (cs : list SummaryCaseRaw) (t : number) (n : nat) :
  foldl (ScoreAnalysisService.addCase bestScores objective) (t, n) cs =
  (foldl num_add t
     (map (relativeScoreOf bestScores objective)
        (filter (fun c => scored bestScores c = true) cs)),
   (n + length (filter (fun c => scored bestScores c = true) cs))%nat).
Proof.
  revert t n. induction cs as [|c cs IH]; intros t n.
  - simpl. rewrite Nat.add_0_r. reflexivity.
  - rewrite filter_cons. cbn [foldl].
    destruct (scored bestScores c) eqn:E.
    + rewrite (addCase_scored c t n E), IH.
      rewrite decide_True by reflexivity. simpl. f_equal. lia.
    + rewrite (addCase_unscored c (t, n) E), IH.
      rewrite decide_False by discriminate. reflexivity.
Qed.

Lemma meanOrZero_sumRelative (cs : list SummaryCaseRaw) :
  ScoreAnalysisService.meanOrZero (ScoreAnalysisService.sumRelative bestScores objective cs) =
  mean (map (relativeScoreOf bestScores objective)
          (filter (fun c => scored bestScores c = true) cs)).
Proof.
  unfold ScoreAnalysisService.sumRelative. rewrite foldl_addCase.
  unfold ScoreAnalysisService.meanOrZero, mean, total. simpl.
  destruct (filter (fun c => scored bestScores c = true) cs) as [|c l]; simpl;
    rewrite ?length_map; reflexivity.
Qed.

End AverageRelativeScore.

(** C4, as the code has it.  The average relative score that
    [calculateExecutionStats] reports, and the one that
    [recalculateAllRelativeScores] compares and stores, is the mean of the
    relative scores over exactly the cases whose score is not null and whose
    seed has a best score; a scored case whose score is zero or negative is
    one of them and enters with relative score 0.  The average is 0 when no
    case is scored; [calculateExecutionStats] also reports 0 when
    [case_count] is not positive or [cases] is no array. *)
Theorem averageRelativeScore_is_mean_over_scored_cases
    (w : World) (summaryData : SummaryJson) (cs : list SummaryCaseRaw) :
  let bestScores := ConfigService.getBestScores w in
  let objective := ConfigService.getObjective w in
  let scoredCases := filter (fun c => scored bestScores c = true) cs in
  let average := mean (map (relativeScoreOf bestScores objective) scoredCases) in
  ScoreAnalysisService.meanOrZero (ScoreAnalysisService.sumRelative bestScores objective cs)
    = average /\
  (cases summaryData = ArrayCases cs ->
   ScoreAnalysisService.stat_averageRelativeScore
     (ScoreAnalysisService.calculateExecutionStats summaryData w)
   = if (0 <? default 0 (case_count summaryData))%Z then nan_to_zero average else 0%Q) /\
  (arrayOf (cases summaryData) = None ->
   ScoreAnalysisService.stat_averageRelativeScore
     (ScoreAnalysisService.calculateExecutionStats summaryData w) = 0%Q) /\
  (forall (exe : TestExecution) (updated : nat),
     ScoreAnalysisService.readSummary (Repo.summaryFile w (id exe))
       = Some (SummaryData summaryData) ->
     cases summaryData = ArrayCases cs ->
     recalculateOne bestScores objective (w, updated) exe =
     if num_gt (num_abs (num_sub average (Num (default 0%Q (averageRelativeScore exe)))))
               (Num epsilon)
     then (Repo.save (set_averageRelativeScore (Some (nan_to_zero average)) exe) w,
           Ok (S updated))
     else (w, Ok updated)) /\
  (forall c, c ∈ scoredCases <-> c ∈ cs /\ score c <> None /\ bestScores !! seed c <> None) /\
  (forall c s, c ∈ cs -> score c = Some s -> bestScores !! seed c <> None ->
     Qle_bool s 0 = true ->
     c ∈ scoredCases /\ relativeScoreOf bestScores objective c = Num 0) /\
  (scoredCases = [] -> average = Num 0).
Proof.
  intros bestScores objective scoredCases average.
  split; [apply meanOrZero_sumRelative|].
  split.
  { intros Hcs. unfold ScoreAnalysisService.calculateExecutionStats. simpl.
    rewrite Hcs. cbn [arrayOf]. unfold ScoreAnalysisService.loadConfig.
    destruct (0 <? default 0 (case_count summaryData))%Z; [|reflexivity].
    rewrite meanOrZero_sumRelative. reflexivity. }
  split.
  { intros Hcs. unfold ScoreAnalysisService.calculateExecutionStats. simpl.
    rewrite Hcs. destruct (0 <? default 0 (case_count summaryData))%Z; reflexivity. }
  split.
  { intros exe updated Hsm Hcs. unfold recalculateOne. rewrite Hsm, Hcs. cbv zeta.
    rewrite meanOrZero_sumRelative. reflexivity. }
  assert (Hscored : forall c, c ∈ scoredCases <->
            c ∈ cs /\ score c <> None /\ bestScores !! seed c <> None).
  { intros c. subst scoredCases. rewrite list_elem_of_filter. unfold scored.
    destruct (score c) as [s|], (bestScores !! seed c) as [b|]; split; intros H;
      try (destruct H as [H1 H2]; discriminate H1);
      try (destruct H as (H1 & H2 & H3); congruence).
    - destruct H as [_ H]. split; [exact H|]. split; discriminate.
    - destruct H as [H _]. split; [reflexivity | exact H]. }
  split; [exact Hscored|].
  split.
  { intros c s Hin Hs Hb Hle. split.
    - apply Hscored. rewrite Hs. auto.
    - unfold relativeScoreOf. rewrite Hs.
      destruct (bestScores !! seed c) as [best|]; [|congruence].
      unfold ConfigService.calculateRelativeScore, num_le. rewrite Hle. reflexivity. }
  intros Hnil. subst average. rewrite Hnil. reflexivity.
Qed.

Lemma averageRelativeScore_is_mean_over_scored_cases_witness :
  (ScoreAnalysisService.stat_averageRelativeScore
     (ScoreAnalysisService.calculateExecutionStats Examples.summaryWithZero Examples.emptyWorld)
   == 1)%Q.
Proof.
  pose proof (averageRelativeScore_is_mean_over_scored_cases Examples.emptyWorld
                Examples.summaryWithZero
                [Examples.case 1 (Some 500%Q); Examples.case 2 (Some 0%Q)]) as H.
  cbv zeta in H. destruct H as (_ & H & _).
  rewrite (H eq_refl). vm_compute. reflexivity.
Defined.

(** C4, counterexample.  Seed 1 scored 500 against a best of 1000, seed 2
    scored 0 against a best of 800, objective Min.  The code divides by two
    cases and reports 1; the mean over the cases with a positive score is 2. *)
Lemma averageRelativeScore_counts_zero_scores :
  let bestScores := ConfigService.getBestScores Examples.emptyWorld in
  let objective := ConfigService.getObjective Examples.emptyWorld in
  let reported :=
    ScoreAnalysisService.stat_averageRelativeScore
      (ScoreAnalysisService.calculateExecutionStats Examples.summaryWithZero Examples.emptyWorld) in
  let worded :=
    specAverageRelativeScore bestScores objective
      (default [] (arrayOf (cases Examples.summaryWithZero))) in
  (reported == 1)%Q /\ (worded == 2)%Q /\ ~ (reported == worded)%Q.
Proof.
  vm_compute. split; [reflexivity|]. split; [reflexivity|]. discriminate.
Qed.

(* ===================================================================== *)
(** * ScoreAnalysisService.recalculateAllRelativeScores                   *)
(* ===================================================================== *)

(** C5, at the failing input: one run whose summary.json has a scored case
    and no [case_count].  [findById] recomputes the stored average from the
    summary and gets 0 (the [caseCnt > 0] guard), the recalculation gets 2,
    so the run is saved on the first pass and again on the second. *)
Theorem recalculateAllRelativeScores_saves_again :
  let firstPass := recalculateAllRelativeScores Examples.historyWithoutCount in
  let secondPass := recalculateAllRelativeScores (fst firstPass) in
  snd firstPass = Ok (1%nat, 1%nat) /\ snd secondPass = Ok (1%nat, 1%nat).
Proof. vm_compute. split; reflexivity. Qed.

(* ===================================================================== *)
(** * ExecutionService.finalizeExecution                                  *)
(* ===================================================================== *)

Section Finalize.

Lemma drop_emitted_app {A} (l evs : list A) : drop (length l) (l ++ evs)%list = evs.
Proof. apply drop_app_length. Qed.

(** C8, as the code has it.  Whatever [finalizeExecution id COMPLETED]
    emits, a status event carrying COMPLETED occurs in it once, behind the
    log line that ends the call of [recalculateAllRelativeScores]: the
    success line when the call returned, the failure line when it threw
    (the [catch] of [finalizeExecution] lets the run complete all the same).
    Its record is the one [findById] reads from the store as that call left
    it, which is also the store at the end of [finalizeExecution], with the
    status set. *)
Theorem completed_event_follows_recalculation_call (s : System) (executionId : string) :
  let s' := fst (ExecutionService.finalizeExecution executionId COMPLETED s) in
  let events := emittedBy (ExecutionService.finalizeExecution executionId COMPLETED) s in
  emitted s' = (emitted s ++ events)%list /\
  forall (i : string) (rec : TestExecution),
    execution_status i COMPLETED rec ∈ events ->
    exists (e u : TestExecution),
      let recalculated :=
        recalculateAllRelativeScores (Repo.save (set_status COMPLETED e) (world s)) in
      let closing :=
        match snd recalculated with
        | Ok _ => execution_log executionId info_ RecalculationCompleted
        | Throw => execution_log executionId error RecalculationFailed
        end in
      Repo.findById executionId (world s) = Ok (Some e) /\
      world s' = fst recalculated /\
      Repo.findById executionId (world s') = Ok (Some u) /\
      i = executionId /\ rec = set_status COMPLETED u /\
      events =
        [execution_log executionId info_ Recalculating; closing;
         execution_status executionId COMPLETED rec;
         execution_progress executionId rec;
         execution_log executionId info_
           (FinalResultPassed (acceptedCount rec) (totalCount rec))].
Proof.
  intros s' events. subst s' events. unfold emittedBy.
  unfold ExecutionService.finalizeExecution, bind, ExecutionService.findById.
  destruct (Repo.findById executionId (world s)) as [[e|]|] eqn:E1.
  - unfold try_catch, bind, ExecutionService.save, ExecutionService.emitLog, onWorld,
      onWorldRes, emit. simpl.
    destruct (recalculateAllRelativeScores (Repo.save (set_status COMPLETED e) (world s)))
      as [w1 [counts|]] eqn:E2; simpl;
      (destruct (Repo.findById executionId w1) as [[u|]|] eqn:E3; simpl;
       rewrite <- !app_assoc; simpl; rewrite drop_emitted_app;
       (split; [reflexivity|]); intros i rec Hin;
       repeat (apply elem_of_cons in Hin; destruct Hin as [Hin|Hin]; try discriminate Hin);
       try (apply elem_of_nil in Hin; destruct Hin);
       injection Hin as -> ->; exists e, u; cbv zeta; rewrite E2; simpl;
       repeat split; try reflexivity; exact E3).
  - unfold ExecutionService.updateExecutionStatus, bind, onWorldRes, updateStatus,
      ExecutionService.findById.
    rewrite E1. simpl. rewrite E1. simpl.
    rewrite drop_all. split; [rewrite app_nil_r; reflexivity|].
    intros i rec Hin. apply elem_of_nil in Hin. destruct Hin.
  - simpl. rewrite drop_all. split; [rewrite app_nil_r; reflexivity|].
    intros i rec Hin. apply elem_of_nil in Hin. destruct Hin.
Qed.

Lemma completed_event_follows_recalculation_call_witness :
  let s' := fst (ExecutionService.finalizeExecution "run-1" COMPLETED Traces.atClose) in
  exists (rec u : TestExecution),
    execution_status "run-1" COMPLETED rec
      ∈ emittedBy (ExecutionService.finalizeExecution "run-1" COMPLETED) Traces.atClose /\
    Repo.findById "run-1" (world s') = Ok (Some u) /\
    rec = set_status COMPLETED u /\
    Repo.infoFile (world s') "run-0" <> Repo.infoFile (world Traces.atClose) "run-0".
Proof.
  intros s'.
  assert (Hin : exists rec, execution_status "run-1" COMPLETED rec
                  ∈ emittedBy (ExecutionService.finalizeExecution "run-1" COMPLETED)
                      Traces.atClose).
  { eexists. apply list_elem_of_In. vm_compute. right. right. left. reflexivity. }
  destruct Hin as [rec Hin].
  destruct (completed_event_follows_recalculation_call Traces.atClose "run-1") as [_ H].
  destruct (H "run-1" rec Hin) as (e & u & _ & _ & Hu & _ & Hrec & _).
  exists rec, u. split; [exact Hin|]. split; [exact Hu|]. split; [exact Hrec|].
  vm_compute. discriminate.
Defined.

(** C8, counterexample.  The history holds a run whose summary.json has an
    object for [cases].  The recalculation throws there, run-0 behind it is
    never reached (over the history without that run it is saved anew), no
    success line is logged, and the COMPLETED event of run-1 is emitted all
    the same, behind the failure line. *)
Lemma completed_event_after_failed_recalculation :
  let s := Traces.atCloseWithObject in
  let s' := fst (ExecutionService.finalizeExecution "run-1" COMPLETED s) in
  let events := emittedBy (ExecutionService.finalizeExecution "run-1" COMPLETED) s in
  let sound := fst (ExecutionService.finalizeExecution "run-1" COMPLETED Traces.atClose) in
  snd (recalculateAllRelativeScores (world s)) = Throw /\
  (exists rec : TestExecution, execution_status "run-1" COMPLETED rec ∈ events) /\
  execution_log "run-1" error RecalculationFailed ∈ events /\
  (execution_log "run-1" info_ RecalculationCompleted ∉ events) /\
  Repo.infoFile (world s') "run-0" = Repo.infoFile (world s) "run-0" /\
  Repo.infoFile (world sound) "run-0" <> Repo.infoFile (world Traces.atClose) "run-0".
Proof.
  cbv zeta. split; [vm_compute; reflexivity|].
  split.
  { eexists. apply list_elem_of_In. vm_compute. right. right. left. reflexivity. }
  split.
  { apply list_elem_of_In. vm_compute. right. left. reflexivity. }
  split.
  { intros H. apply list_elem_of_In in H. vm_compute in H.
    repeat (destruct H as [H|H]; [discriminate H|]). exact H. }
  split; [vm_compute; reflexivity|].
  vm_compute. discriminate.
Qed.

End Finalize.

(* ===================================================================== *)
(** * Status trail of a run                                               *)
(* ===================================================================== *)

(** C2, at the failing input: run-1 is started, stopped by the user, and
    the killed child then closes with no exit code.  [stopExecution] emits
    CANCELLED; the resumed [executePacher] then finalizes the same run as
    FAILED, which is also the status left in the store. *)
Theorem stop_then_close_overwrites_cancelled :
  let s := steps Examples.idle Traces.stoppedThenClosed in
  statusOf (world (steps Examples.idle [CallStart "run-1" Examples.baseline; CallStop "run-1"]))
    "run-1" = Some CANCELLED /\
  statusTrail "run-1" (emitted s) = [RUNNING; CANCELLED; FAILED] /\
  monotonic (statusTrail "run-1" (emitted s)) = false /\
  statusOf (world s) "run-1" = Some FAILED.
Proof. vm_compute. repeat split; reflexivity. Qed.

(* ===================================================================== *)
(** * The configuration file around a run                                 *)
(* ===================================================================== *)

(** C1, counterexample.  run-2 is started while run-1 is running, so the
    backup taken for run-2 is the configuration as modified for run-1.  When
    run-1 completes, the file restored is that backup, not the content the
    file had before run-1 was started. *)
Lemma overlapping_runs_restore_wrong_backup :
  let s := steps Examples.idle Traces.overlapping in
  ConfigService.getConfig (world Examples.idle) = Examples.config /\
  statusOf (world s) "run-1" = Some COMPLETED /\
  ConfigService.getConfig (world s) = ConfigService.withTestWindow 100 0 Examples.config /\
  ConfigService.getConfig (world s) <> ConfigService.getConfig (world Examples.idle) /\
  configFile (world s) <> configFile (world Examples.idle).
Proof.
  cbv zeta.
  split; [vm_compute; reflexivity|]. split; [vm_compute; reflexivity|].
  split; [vm_compute; reflexivity|].
  assert (Hconfig : ConfigService.getConfig (world (steps Examples.idle Traces.overlapping))
                    <> ConfigService.getConfig (world Examples.idle)).
  { intros H. apply (f_equal (fun c => c !! "test" ≫= (fun t => t !! "end_seed"))) in H.
    vm_compute in H. discriminate H. }
  split; [exact Hconfig|].
  intros H. apply Hconfig. unfold ConfigService.getConfig. rewrite H. reflexivity.
Qed.

Section ConfigIsKept.

Lemma sameConfig_refl (s : System) : sameConfig s s.
Proof. split; reflexivity. Qed.

Lemma sameConfig_trans (s1 s2 s3 : System) :
  sameConfig s1 s2 -> sameConfig s2 s3 -> sameConfig s1 s3.
Proof. intros [H1 H2] [H3 H4]. split; congruence. Qed.

Lemma keepsConfig_ret {A} (a : A) : keepsConfig (ret a).
Proof. intros s. apply sameConfig_refl. Qed.

Lemma keepsConfig_bind {A B} (m : M A) (k : A -> M B) :
  keepsConfig m -> (forall a, keepsConfig (k a)) -> keepsConfig (bind m k).
Proof.
  intros Hm Hk s. unfold bind. specialize (Hm s).
  destruct (m s) as [s1 [a|]]; simpl in *.
  - eapply sameConfig_trans; [exact Hm | apply Hk].
  - exact Hm.
Qed.

Lemma keepsConfig_try_catch {A} (m h : M A) :
  keepsConfig m -> keepsConfig h -> keepsConfig (try_catch m h).
Proof.
  intros Hm Hh s. unfold try_catch. specialize (Hm s).
  destruct (m s) as [s1 [a|]]; simpl in *.
  - exact Hm.
  - eapply sameConfig_trans; [exact Hm | apply Hh].
Qed.

Lemma keepsConfig_emit (e : Emitted) : keepsConfig (emit e).
Proof. intros s. split; reflexivity. Qed.

Lemma keepsConfig_emitLog (i : string) (l : LogLevel) (t : LogText) :
  keepsConfig (ExecutionService.emitLog i l t).
Proof. apply keepsConfig_emit. Qed.

Lemma keepsConfig_findById (i : string) : keepsConfig (ExecutionService.findById i).
Proof. intros s. apply sameConfig_refl. Qed.

Lemma keepsConfig_save (e : TestExecution) : keepsConfig (ExecutionService.save e).
Proof. intros s. split; reflexivity. Qed.

Lemma keepsConfig_updateStatus (i : string) (st : TestExecutionStatus) :
  keepsConfig (onWorldRes (updateStatus i st)).
Proof.
  intros s. unfold onWorldRes, updateStatus.
  destruct (Repo.findById i (world s)) as [[e|]|]; split; reflexivity.
Qed.

Lemma recalculateOne_config (bestScores : gmap Z Q) (objective : Objective)
    (st : World * nat) (exe : TestExecution) :
  configFile (fst (recalculateOne bestScores objective st exe)) = configFile (fst st) /\
  backupFile (fst (recalculateOne bestScores objective st exe)) = backupFile (fst st).
Proof.
  destruct st as [w n]. unfold recalculateOne. cbv zeta.
  destruct (ScoreAnalysisService.readSummary _) as [[|sm]|]; try (split; reflexivity).
  destruct (cases sm); try (split; reflexivity);
    destruct (num_gt _ _); split; reflexivity.
Qed.

Lemma recalculateLoop_config (bestScores : gmap Z Q) (objective : Objective)
    (l : list TestExecution) (st : World * nat) :
  configFile (fst (recalculateLoop bestScores objective l st)) = configFile (fst st) /\
  backupFile (fst (recalculateLoop bestScores objective l st)) = backupFile (fst st).
Proof.
  revert st. induction l as [|exe l IH]; intros st; [split; reflexivity|].
  cbn [recalculateLoop].
  destruct (recalculateOne_config bestScores objective st exe) as [H3 H4].
  destruct (recalculateOne bestScores objective st exe) as [w [n|]]; simpl in *.
  - destruct (IH (w, n)) as [H1 H2]. simpl in *. split; congruence.
  - split; assumption.
Qed.

Lemma keepsConfig_recalculate : keepsConfig (onWorldRes recalculateAllRelativeScores).
Proof.
  intros s. unfold onWorldRes, recalculateAllRelativeScores, ScoreAnalysisService.loadConfig.
  pose proof (recalculateLoop_config (ConfigService.getBestScores (world s))
                (ConfigService.getObjective (world s)) (findAll (world s)) (world s, 0%nat)) as H.
  destruct (recalculateLoop _ _ _ _) as [w' [n|]]; exact H.
Qed.

Lemma keepsConfig_updateExecutionStatus (i : string) (st : TestExecutionStatus) :
  keepsConfig (ExecutionService.updateExecutionStatus i st).
Proof.
  unfold ExecutionService.updateExecutionStatus.
  apply keepsConfig_bind; [apply keepsConfig_updateStatus|]. intros _.
  apply keepsConfig_bind; [apply keepsConfig_findById|]. intros [e|].
  - apply keepsConfig_emit.
  - apply keepsConfig_ret.
Qed.

Lemma keepsConfig_finalizeExecution (i : string) (st : TestExecutionStatus) :
  keepsConfig (ExecutionService.finalizeExecution i st).
Proof.
  unfold ExecutionService.finalizeExecution.
  apply keepsConfig_bind; [apply keepsConfig_findById|]. intros [e|].
  - apply keepsConfig_bind; [apply keepsConfig_save|]. intros _.
    destruct st;
      repeat first
        [ apply keepsConfig_emit | apply keepsConfig_emitLog | apply keepsConfig_ret
        | apply keepsConfig_try_catch
        | apply keepsConfig_bind; [|intros ?]
        | apply keepsConfig_recalculate | apply keepsConfig_findById
        | match goal with |- keepsConfig (match ?x with _ => _ end) => destruct x end ].
  - apply keepsConfig_updateExecutionStatus.
Qed.

Lemma keepsConfig_fatalCatch (i : string) : keepsConfig (ExecutionService.fatalCatch i).
Proof.
  apply keepsConfig_try_catch;
    [apply keepsConfig_updateExecutionStatus | apply keepsConfig_ret].
Qed.

End ConfigIsKept.

Section ConfigIsRestored.

Lemma restoreConfig_restores (s : System) :
  backupFile (world s) <> Missing ->
  restoredFrom s (fst (onWorld ConfigService.restoreConfig s)).
Proof.
  intros Hb. unfold restoredFrom, onWorld, ConfigService.restoreConfig.
  destruct (backupFile (world s)) eqn:E; [congruence| |]; simpl; rewrite E; split; reflexivity.
Qed.

Lemma restoredFrom_keeps (s s1 s2 : System) :
  restoredFrom s s1 -> sameConfig s1 s2 -> restoredFrom s s2.
Proof. intros [H1 H2] [H3 H4]. split; congruence. Qed.

Lemma restoredFrom_after_keeps (s s1 s2 : System) :
  sameConfig s s1 -> restoredFrom s1 s2 -> restoredFrom s s2.
Proof. intros [H1 H2] [H3 H4]. split; congruence. Qed.

Lemma restoredFrom_twice (s s1 s2 : System) :
  restoredFrom s s1 -> restoredFrom s1 s2 -> restoredFrom s s2.
Proof. intros [H1 H2] [H3 H4]. split; congruence. Qed.

Lemma restoresConfig_restore_then {B} (k : bool -> M B) :
  (forall c, keepsConfig (k c)) ->
  restoresConfig (bind (onWorld ConfigService.restoreConfig) k).
Proof.
  intros Hk s Hb. unfold bind.
  pose proof (restoreConfig_restores s Hb) as Hr.
  destruct (onWorld ConfigService.restoreConfig s) as [s1 [c|]] eqn:E; simpl in *.
  - eapply restoredFrom_keeps; [exact Hr | apply Hk].
  - exact Hr.
Qed.

Lemma restoresConfig_after_emit {B} (e : Emitted) (m : M B) :
  restoresConfig m -> restoresConfig (bind (emit e) (fun _ => m)).
Proof.
  intros Hm s Hb. unfold bind, emit.
  apply (restoredFrom_after_keeps s (set_emitted (emitted s ++ [e]) s)).
  - split; reflexivity.
  - apply Hm. exact Hb.
Qed.

Lemma restoresConfig_try_catch {A} (m h : M A) :
  restoresConfig m -> restoresConfig h -> restoresConfig (try_catch m h).
Proof.
  intros Hm Hh s Hb. unfold try_catch. specialize (Hm s Hb).
  destruct (m s) as [s1 [a|]]; simpl in *; [exact Hm|].
  eapply restoredFrom_twice; [exact Hm|]. apply Hh.
  destruct Hm as [-> _]. exact Hb.
Qed.

Lemma restoresConfig_try_catch_keeps {A} (m h : M A) :
  restoresConfig m -> keepsConfig h -> restoresConfig (try_catch m h).
Proof.
  intros Hm Hh s Hb. unfold try_catch. specialize (Hm s Hb).
  destruct (m s) as [s1 [a|]]; simpl in *; [exact Hm|].
  eapply restoredFrom_keeps; [exact Hm | apply Hh].
Qed.

Lemma keepsConfig_logRestore (i : string) (c : bool) (l1 l2 : LogLevel) (t1 t2 : LogText) :
  keepsConfig (if c then ExecutionService.emitLog i l1 t1 else ExecutionService.emitLog i l2 t2).
Proof. destruct c; apply keepsConfig_emitLog. Qed.

Lemma restoresConfig_executePacherCatch (i : string) :
  restoresConfig (ExecutionService.executePacherCatch i).
Proof.
  unfold ExecutionService.executePacherCatch, ExecutionService.emitLog at 1.
  apply restoresConfig_after_emit. apply restoresConfig_restore_then. intros c.
  apply keepsConfig_bind; [apply keepsConfig_logRestore|]. intros _.
  apply keepsConfig_bind; [apply keepsConfig_emitLog|]. intros _.
  apply keepsConfig_finalizeExecution.
Qed.

Lemma restoresConfig_executePacherResume (i : string) (success : bool) (code : option Z) :
  restoresConfig (ExecutionService.executePacherResume i success code).
Proof.
  unfold ExecutionService.executePacherResume.
  apply restoresConfig_try_catch_keeps; [|apply keepsConfig_fatalCatch].
  apply restoresConfig_try_catch; [|apply restoresConfig_executePacherCatch].
  unfold ExecutionService.emitLog at 1.
  apply restoresConfig_after_emit. apply restoresConfig_restore_then. intros c.
  apply keepsConfig_bind; [apply keepsConfig_logRestore|]. intros _.
  destruct success.
  - apply keepsConfig_bind; [apply keepsConfig_emitLog|]. intros _.
    apply keepsConfig_finalizeExecution.
  - apply keepsConfig_bind; [apply keepsConfig_emitLog|]. intros _.
    apply keepsConfig_finalizeExecution.
Qed.

(** The branch of [stopExecution] taken when a process was killed. *)
Lemma restoresConfig_afterKill (i : string) :
  restoresConfig
    (bind (ExecutionService.emitLog i info_ KilledByUser) (fun _ =>
     bind (ExecutionService.emitLog i info_ RestoringAfterStop) (fun _ =>
     bind (onWorld ConfigService.restoreConfig) (fun configRestored =>
     bind (if configRestored : bool
           then ExecutionService.emitLog i info_ Restored
           else ExecutionService.emitLog i warn RestoreFailed) (fun _ =>
     ExecutionService.updateExecutionStatus i CANCELLED))))).
Proof.
  unfold ExecutionService.emitLog at 1 2.
  apply restoresConfig_after_emit. apply restoresConfig_after_emit.
  apply restoresConfig_restore_then. intros c.
  apply keepsConfig_bind; [apply keepsConfig_logRestore|]. intros _.
  apply keepsConfig_updateExecutionStatus.
Qed.

(** [stopExecution] either does nothing at all or ends with the
    configuration restored. *)
Lemma stopExecution_restores (i : string) (s : System) :
  backupFile (world s) <> Missing ->
  fst (ExecutionService.stopExecution i s) = s \/
  restoredFrom s (fst (ExecutionService.stopExecution i s)).
Proof.
  intros Hb. destruct (activeProcesses s !! i) as [process|] eqn:E.
  - right.
    unfold ExecutionService.stopExecution, bind at 1, ProcessManager.killProcess.
    cbv beta. rewrite E. cbv beta iota.
    match goal with
    | |- restoredFrom s (fst (_ ?s1)) =>
        apply (restoredFrom_after_keeps s s1); [split; reflexivity|]
    end.
    apply (restoresConfig_afterKill i). exact Hb.
  - left.
    unfold ExecutionService.stopExecution, bind at 1, ProcessManager.killProcess.
    cbv beta. rewrite E. reflexivity.
Qed.

Lemma saveTestResults_config (i : string) (w : World) :
  configFile (ProcessManager.saveTestResults i w) = configFile w /\
  backupFile (ProcessManager.saveTestResults i w) = backupFile w.
Proof.
  unfold ProcessManager.saveTestResults.
  destruct (results w !! i); [destruct (latestSummary w)|]; split; reflexivity.
Qed.

(** The end of a child either is ignored or ends with the configuration
    restored. *)
Lemma childEnded_restores (process : nat) (code : option Z) (listener : string -> M bool)
    (s : System) :
  (forall o s0, exists s1 b, listener o s0 = (s1, Ok b) /\ sameConfig s0 s1) ->
  backupFile (world s) <> Missing ->
  fst (childEnded process listener code s) = s \/
  restoredFrom s (fst (childEnded process listener code s)).
Proof.
  intros Hl Hb. unfold childEnded.
  destruct (children s !! process) as [c|]; [right|left; reflexivity].
  unfold bind.
  destruct (Hl (owner c) (set_children (delete process (children s)) s))
    as (s1 & b & -> & Hs1).
  eapply restoredFrom_after_keeps; [exact Hs1|].
  apply restoresConfig_executePacherResume.
  destruct Hs1 as [_ ->]. exact Hb.
Qed.

Lemma onClose_total (code : option Z) (o : string) (s0 : System) :
  exists s1 b, ProcessManager.onClose o code s0 = (s1, Ok b) /\ sameConfig s0 s1.
Proof.
  unfold ProcessManager.onClose. destruct (bool_decide (code = Some 0%Z)).
  - eexists _, true. split; [reflexivity|]. simpl.
    destruct (saveTestResults_config o (world s0)) as [H1 H2]. split; assumption.
  - eexists _, false. split; [reflexivity|]. split; reflexivity.
Qed.

Lemma onError_total (o : string) (s0 : System) :
  exists s1 b, ProcessManager.onError o s0 = (s1, Ok b) /\ sameConfig s0 s1.
Proof. eexists _, false. split; [reflexivity|]. split; reflexivity. Qed.

End ConfigIsRestored.

Section RunAlone.

(** A step that is not a start keeps the backup, and either restores the
    configuration from it or leaves the configuration, the results directory
    and the list of emitted events as they are. *)
Lemma step_without_start (s : System) (i : Input) :
  isStart i = false ->
  backupFile (world s) <> Missing ->
  backupFile (world (step s i)) = backupFile (world s) /\
  (configFile (world (step s i)) = backupFile (world s) \/
   (configFile (world (step s i)) = configFile (world s) /\
    results (world (step s i)) = results (world s) /\
    emitted (step s i) = emitted s)).
Proof.
  intros Hi Hb. destruct i as [i r | i | p code | p | f | f | t]; simpl in Hi; try discriminate.
  - cbn [step]. destruct (stopExecution_restores i s Hb) as [-> | [H1 H2]]; auto.
  - cbn [step].
    destruct (childEnded_restores p code (fun o => ProcessManager.onClose o code) s
                (onClose_total code) Hb) as [-> | [H1 H2]]; auto.
  - cbn [step].
    destruct (childEnded_restores p None ProcessManager.onError s onError_total Hb)
      as [-> | [H1 H2]]; auto.
  - simpl. auto.
  - simpl. auto.
  - simpl. auto.
Qed.

Lemma statusOf_results (w w' : World) (i : string) :
  results w = results w' -> statusOf w i = statusOf w' i.
Proof.
  intros H. unfold statusOf, Repo.findById, Repo.infoFile, Repo.summaryFile, Repo.dirExists.
  rewrite H. destruct (results w' !! i) as [d|]; simpl; [|reflexivity].
  destruct (info d) as [|raw|[|e]]; simpl; try reflexivity;
    destruct (summary d) as [|raw'|[|sm]]; simpl; reflexivity.
Qed.

Lemma statusTrail_app (i : string) (l1 l2 : list Emitted) :
  statusTrail i (l1 ++ l2) = (statusTrail i l1 ++ statusTrail i l2)%list.
Proof. unfold statusTrail. apply omap_app. Qed.

(** After [spawnPacher], the run reads as RUNNING if it reads at all. *)
Lemma readsTerminal_after_spawn (request : Request.TestExecutionRequest) (i : string)
    (s : System) :
  readsTerminal i (fst (ProcessManager.spawnPacher request i s)) = false.
Proof.
  unfold readsTerminal, statusOf, Repo.findById, Repo.infoFile, Repo.summaryFile,
    Repo.dirExists, ProcessManager.spawnPacher. simpl.
  rewrite lookup_insert_eq. simpl.
  destruct (Repo.summaryFile (world s) i) as [|raw|[|sm]]; reflexivity.
Qed.

Lemma keepsConfig_spawnPacher (request : Request.TestExecutionRequest) (i : string) :
  keepsConfig (ProcessManager.spawnPacher request i).
Proof. intros s. split; reflexivity. Qed.

(** [updateExecutionStatus] emits at most the one status event it is asked
    to emit. *)
Lemma updateExecutionStatus_emitted (i : string) (st : TestExecutionStatus) (s : System) :
  exists evs, emitted (fst (ExecutionService.updateExecutionStatus i st s))
              = (emitted s ++ evs)%list /\
    forall j, terminal st = false -> existsb terminal (statusTrail j evs) = false.
Proof.
  unfold ExecutionService.updateExecutionStatus, bind, onWorldRes, ExecutionService.findById.
  destruct (updateStatus i st (world s)) as [w1 [[]|]]; cbn [fst snd world set_world].
  - destruct (Repo.findById i w1) as [[e|]|]; simpl.
    + exists [execution_status i st e]. split; [reflexivity|].
      intros j Ht. simpl. destruct (String.eqb i j); simpl; [rewrite Ht|]; reflexivity.
    + exists []. split; [rewrite app_nil_r; reflexivity | reflexivity].
    + exists []. split; [rewrite app_nil_r; reflexivity | reflexivity].
  - exists []. split; [rewrite app_nil_r; reflexivity | reflexivity].
Qed.

(** [executePacher], up to the wait for the child: the backup is kept, and
    either the configuration was restored, or the run reads as RUNNING and
    no terminal status was announced. *)
Lemma executePacherBegin_outcome (i : string) (request : Request.TestExecutionRequest)
    (s : System) :
  backupFile (world s) <> Missing ->
  let s' := fst (ExecutionService.executePacherBegin i request s) in
  backupFile (world s') = backupFile (world s) /\
  (configFile (world s') = backupFile (world s) \/
   (readsTerminal i s' = false /\
    exists evs, emitted s' = (emitted s ++ evs)%list /\
                existsb terminal (statusTrail i evs) = false)).
Proof.
  intros Hb. unfold ExecutionService.executePacherBegin.
  set (body := bind (ExecutionService.updateExecutionStatus i RUNNING) _).
  assert (Hbody : keepsConfig body).
  { subst body. apply keepsConfig_bind; [apply keepsConfig_updateExecutionStatus|]. intros _.
    apply keepsConfig_bind; [apply keepsConfig_emitLog|]. intros _.
    apply keepsConfig_spawnPacher. }
  unfold try_catch. destruct (body s) as [s1 [[]|]] eqn:E; cbn zeta; simpl.
  - pose proof (Hbody s) as [H1 H2]. rewrite E in H1, H2. simpl in H1, H2.
    split; [exact H2|]. right.
    subst body. unfold bind at 1 in E.
    destruct (updateExecutionStatus_emitted i RUNNING s) as (evs & Hevs & Htrail).
    destruct (ExecutionService.updateExecutionStatus i RUNNING s) as [s2 [[]|]];
      [|discriminate E].
    unfold bind, ExecutionService.emitLog, emit in E. cbv beta iota in E.
    assert (s1 = fst (ProcessManager.spawnPacher request i
                        (set_emitted (emitted s2 ++ [execution_log i info_ (ExecutionStarted i)]) s2)))
      as -> by (rewrite E; reflexivity).
    split; [apply readsTerminal_after_spawn|].
    exists (evs ++ [execution_log i info_ (ExecutionStarted i)])%list.
    simpl in Hevs. split.
    + simpl. rewrite Hevs. rewrite <- app_assoc. reflexivity.
    + rewrite statusTrail_app. simpl. rewrite app_nil_r. apply Htrail. reflexivity.
  - pose proof (Hbody s) as Hs1. rewrite E in Hs1. simpl in Hs1.
    assert (Hb1 : backupFile (world s1) <> Missing) by (destruct Hs1 as [_ ->]; exact Hb).
    pose proof (restoresConfig_executePacherCatch i s1 Hb1) as Hr.
    destruct (ExecutionService.executePacherCatch i s1) as [s2 [[]|]]; simpl in *.
    + destruct (restoredFrom_after_keeps _ _ _ Hs1 Hr) as [H1 H2]. auto.
    + pose proof (keepsConfig_fatalCatch i s2) as Hf.
      destruct (restoredFrom_keeps _ _ _ (restoredFrom_after_keeps _ _ _ Hs1 Hr) Hf)
        as [H1 H2]. auto.
Qed.

(** [startExecution] is [executePacherBegin] run from a state whose backup
    is the one [backupConfig] has just taken, after two log events. *)
Lemma startExecution_begin (i : string) (request : Request.TestExecutionRequest)
    (s : System) :
  exists s0,
    fst (ExecutionService.startExecution i request s)
      = fst (ExecutionService.executePacherBegin i request s0) /\
    backupFile (world s0) = backupFile (fst (ConfigService.backupConfig (world s))) /\
    exists logs, emitted s0 = (emitted s ++ logs)%list /\ statusTrail i logs = [].
Proof.
  eexists. split.
  - unfold ExecutionService.startExecution, ExecutionService.save,
      ExecutionService.emitLog, bind, emit, onWorld, ConfigService.updateConfigForTest, ret.
    cbv beta iota zeta.
    match goal with
    | |- context [ExecutionService.executePacherBegin i request ?sB] =>
        transitivity (fst (ExecutionService.executePacherBegin i request sB));
        [destruct (ExecutionService.executePacherBegin i request sB) as [s1 [[]|]]
        |]
    end; reflexivity.
  - split; [reflexivity|]. simpl.
    eexists. split; [rewrite <- app_assoc; reflexivity | reflexivity].
Qed.

(** After [startExecution] from a state whose configuration file exists,
    the backup is the content the file had before the call, and either the
    file has that content again, or the run reads as RUNNING and no terminal
    status was announced during the call. *)
Lemma startExecution_outcome (i : string) (request : Request.TestExecutionRequest)
    (s : System) :
  configFile (world s) <> Missing ->
  backedUp (configFile (world s)) (length (emitted s)) i (step s (CallStart i request)).
Proof.
  intros Hc. cbn [step]. unfold backedUp, announcedTerminal.
  destruct (startExecution_begin i request s) as (s0 & -> & Hb0 & logs & Hlogs & Htrail).
  assert (Hb1 : backupFile (world s0) = configFile (world s)).
  { rewrite Hb0. unfold ConfigService.backupConfig.
    destruct (configFile (world s)) eqn:E; [congruence| |]; reflexivity. }
  assert (Hb : backupFile (world s0) <> Missing) by (rewrite Hb1; exact Hc).
  pose proof (executePacherBegin_outcome i request s0 Hb) as H. cbv zeta in H.
  rewrite Hb1 in H. destruct H as [H1 [H2 | (H2 & evs & Hevs & H3)]].
  - split; [exact H1|]. left. exact H2.
  - split; [exact H1|]. right. split; [exact H2|].
    rewrite Hevs, Hlogs, <- app_assoc, drop_app_length.
    rewrite statusTrail_app, Htrail. exact H3.
Qed.

Lemma backedUp_step (c0 : FileState TomlFile) (n : nat)
    (executionId : string) (s : System) (i : Input) :
  c0 <> Missing -> isStart i = false ->
  backedUp c0 n executionId s -> backedUp c0 n executionId (step s i).
Proof.
  intros Hc Hi [Hb Hs].
  assert (Hb' : backupFile (world s) <> Missing) by (rewrite Hb; exact Hc).
  destruct (step_without_start s i Hi Hb') as [H1 [H2 | (H2 & H3 & H4)]].
  - split; [congruence|]. left. congruence.
  - split; [congruence|]. destruct Hs as [Hs | [Hs1 Hs2]].
    + left. congruence.
    + right. unfold readsTerminal, announcedTerminal in *.
      rewrite (statusOf_results _ _ executionId H3), H4. auto.
Qed.

Lemma backedUp_steps (c0 : FileState TomlFile) (n : nat)
    (executionId : string) (l : list Input) :
  c0 <> Missing -> noStart l = true ->
  forall s, backedUp c0 n executionId s -> backedUp c0 n executionId (steps s l).
Proof.
  intros Hc. induction l as [|i l IH]; intros Hl s Hs; [exact Hs|].
  simpl in Hl. apply andb_prop in Hl. destruct Hl as [Hi Hl].
  apply negb_true_iff in Hi.
  unfold steps. cbn [foldl]. apply (IH Hl). apply backedUp_step; assumption.
Qed.

(** C1, as the code has it.  Let a run be started from a state whose
    configuration file exists, and let no other run be started afterwards
    (stops, ends of children of this or earlier runs, and writes of the tool
    may come in any order).  As soon as the record of the run reads with a
    terminal status, or a status event with a terminal status has been
    emitted for it, the configuration file has the content it had
    immediately before [startExecution] was called. *)
Theorem config_restored_when_no_other_start
    (s : System) (executionId : string) (request : Request.TestExecutionRequest)
    (later : list Input) :
  fileExists (configFile (world s)) = true ->
  noStart later = true ->
  let s' := steps (step s (CallStart executionId request)) later in
  readsTerminal executionId s' || announcedTerminal (length (emitted s)) executionId s' = true ->
  configFile (world s') = configFile (world s).
Proof.
  intros He Hl s' Ht.
  assert (Hc : configFile (world s) <> Missing).
  { intros Hm. rewrite Hm in He. discriminate He. }
  pose proof (startExecution_outcome executionId request s Hc) as H0.
  destruct (backedUp_steps _ _ executionId later Hc Hl _ H0) as [_ [H | [H1 H2]]].
  - exact H.
  - subst s'. rewrite H1, H2 in Ht. discriminate Ht.
Qed.

Lemma config_restored_when_no_other_start_witness :
  statusOf (world (steps (step Examples.idle (CallStart "run-1" Examples.baseline))
                     Traces.afterStart)) "run-1" = Some FAILED /\
  configFile (world (steps (step Examples.idle (CallStart "run-1" Examples.baseline))
                       Traces.afterStart))
    = Holds (External Examples.configText Examples.config).
Proof.
  split; [vm_compute; reflexivity|].
  apply (config_restored_when_no_other_start Examples.idle "run-1" Examples.baseline
           Traces.afterStart).
  - reflexivity.
  - reflexivity.
  - vm_compute. reflexivity.
Defined.

End RunAlone.

(* ===================================================================== *)
(** * ConfigService: backup, restore and the two ways of updating         *)
(* ===================================================================== *)

Section ConfigBackup.

(** X1.  When the configuration file exists, [updateConfigForTest] followed
    by [restoreConfig] puts the file back exactly as it was; the restore
    reports success, the backup holds that same content, and no other file
    has changed. *)
Theorem updateConfigForTest_then_restoreConfig (w : World) (testCaseCount startSeed : Z) :
  fileExists (configFile w) = true ->
  ConfigService.restoreConfig (fst (ConfigService.updateConfigForTest testCaseCount startSeed w))
  = (set_backupFile (configFile w) w, true).
Proof.
  intros He. unfold ConfigService.updateConfigForTest, ConfigService.backupConfig,
    ConfigService.restoreConfig.
  destruct w as [cf bf bs ls rs t]. simpl in *.
  destruct cf as [|raw|c]; [discriminate He| |]; reflexivity.
Qed.

Lemma updateConfigForTest_then_restoreConfig_witness :
  configFile (fst (ConfigService.restoreConfig
                     (fst (ConfigService.updateConfigForTest 100 0 Examples.emptyWorld))))
  = configFile Examples.emptyWorld.
Proof.
  rewrite (updateConfigForTest_then_restoreConfig Examples.emptyWorld 100 0); reflexivity.
Defined.

(** X2.  [restoreConfig] reports whether a backup exists; without one it
    changes nothing; it never changes the backup; and restoring a second
    time changes nothing more. *)
Theorem restoreConfig_spec (w : World) :
  snd (ConfigService.restoreConfig w) = fileExists (backupFile w) /\
  (if fileExists (backupFile w)
   then configFile (fst (ConfigService.restoreConfig w)) = backupFile w
   else fst (ConfigService.restoreConfig w) = w) /\
  backupFile (fst (ConfigService.restoreConfig w)) = backupFile w /\
  ConfigService.restoreConfig (fst (ConfigService.restoreConfig w))
  = ConfigService.restoreConfig w.
Proof.
  unfold ConfigService.restoreConfig.
  destruct w as [cf bf bs ls rs t]. simpl.
  destruct bf as [|raw|c]; simpl; repeat split; reflexivity.
Qed.

(** X3.  [updateConfigForTest] on a configuration file that is missing or
    that smol-toml cannot parse still returns true and writes a file whose
    only section is test, with exactly the two seed fields.  A missing file
    leaves whatever backup there was in place; an unparsable one is copied
    to the backup as it is. *)
Theorem updateConfigForTest_unreadable (w : World) (testCaseCount startSeed : Z) :
  let r := ConfigService.updateConfigForTest testCaseCount startSeed w in
  let window : gmap string (gmap string toml) :=
    {[ "test" := <["end_seed" := TInt (startSeed + testCaseCount)]>
                   {[ "start_seed" := TInt startSeed ]} ]} in
  snd r = true /\
  match configFile w with
  | Missing =>
      ConfigService.getConfig (fst r) = window /\ backupFile (fst r) = backupFile w
  | Garbled raw =>
      ConfigService.getConfig (fst r) = window /\ backupFile (fst r) = Garbled raw
  | Holds content => backupFile (fst r) = Holds content
  end.
Proof.
  unfold ConfigService.updateConfigForTest, ConfigService.backupConfig,
    ConfigService.getConfig, ConfigService.withTestWindow.
  destruct w as [cf bf bs ls rs t]. simpl.
  destruct cf as [|raw|c]; simpl; repeat split; reflexivity.
Qed.

(** X4.  A second [updateConfigForTest] before any restore overwrites the
    backup with what the first one wrote: the backup then holds the test
    window of the first call, and a restore brings back that window, not
    the file as it was before the first call. *)
Theorem updateConfigForTest_twice (w : World) (count1 seed1 count2 seed2 : Z) :
  let w1 := fst (ConfigService.updateConfigForTest count1 seed1 w) in
  let w2 := fst (ConfigService.updateConfigForTest count2 seed2 w1) in
  backupFile w2 = Holds (Written (ConfigService.withTestWindow count1 seed1
                                    (ConfigService.getConfig w))) /\
  configFile (fst (ConfigService.restoreConfig w2)) = configFile w1 /\
  exists test,
    ConfigService.getConfig (fst (ConfigService.restoreConfig w2)) !! "test" = Some test /\
    test !! "start_seed" = Some (TInt seed1) /\
    test !! "end_seed" = Some (TInt (seed1 + count1)).
Proof.
  unfold ConfigService.updateConfigForTest, ConfigService.backupConfig,
    ConfigService.restoreConfig, ConfigService.getConfig.
  destruct w as [cf bf bs ls rs t]. simpl.
  assert (Hw : forall c : gmap string (gmap string toml),
            exists test,
              ConfigService.withTestWindow count1 seed1 c !! "test" = Some test /\
              test !! "start_seed" = Some (TInt seed1) /\
              test !! "end_seed" = Some (TInt (seed1 + count1))).
  { intros c. eexists. unfold ConfigService.withTestWindow.
    split; [apply lookup_insert_eq|].
    split; [rewrite lookup_insert_ne by discriminate|]; apply lookup_insert_eq. }
  destruct cf as [|raw|c]; simpl; (split; [reflexivity|]); (split; [reflexivity|]); apply Hw.
Qed.

(** X5.  [updateConfigForTest] does not disturb what the repository reads:
    the objective, the best scores, and the record [findById] returns for
    any run are the same after it as before. *)
Theorem updateConfigForTest_keeps_records (w : World) (testCaseCount startSeed : Z) (i : string) :
  let w' := fst (ConfigService.updateConfigForTest testCaseCount startSeed w) in
  ConfigService.getObjective w' = ConfigService.getObjective w /\
  ConfigService.getBestScores w' = ConfigService.getBestScores w /\
  Repo.findById i w' = Repo.findById i w.
Proof.
  intros w'.
  assert (Hobj : ConfigService.getObjective w' = ConfigService.getObjective w).
  { assert (Hcfg : ConfigService.getConfig w'
                   = ConfigService.withTestWindow testCaseCount startSeed
                       (ConfigService.getConfig w)).
    { subst w'. unfold ConfigService.updateConfigForTest, ConfigService.backupConfig,
        ConfigService.getConfig.
      destruct w as [cf bf bs ls rs t]. simpl. destruct cf; reflexivity. }
    unfold ConfigService.getObjective. rewrite Hcfg. unfold ConfigService.withTestWindow.
    rewrite lookup_insert_ne by discriminate. reflexivity. }
  assert (Hbest : ConfigService.getBestScores w' = ConfigService.getBestScores w).
  { subst w'. unfold ConfigService.getBestScores, ConfigService.readBestScores,
      ConfigService.updateConfigForTest, ConfigService.backupConfig.
    destruct (configFile w); reflexivity. }
  split; [exact Hobj|]. split; [exact Hbest|].
  assert (Hres : results w' = results w /\ now w' = now w).
  { subst w'. unfold ConfigService.updateConfigForTest, ConfigService.backupConfig.
    destruct (configFile w); split; reflexivity. }
  destruct Hres as [Hres Hnow].
  unfold Repo.findById, Repo.infoFile, Repo.summaryFile, Repo.dirExists, Repo.mergeWithSummary,
    Repo.synthesized, ScoreAnalysisService.calculateExecutionStats,
    ScoreAnalysisService.loadConfig.
  rewrite Hres, Hnow, Hobj, Hbest. reflexivity.
Qed.

End ConfigBackup.

Section ConfigMerge.

Lemma mergeSection_lookup (current update : option (gmap string toml)) (key : string) :
  ConfigUpdate.mergeSection current update !! key =
  match default ∅ update !! key with
  | Some v => Some v
  | None => default ∅ current !! key
  end.
Proof.
  unfold ConfigUpdate.mergeSection. rewrite lookup_union.
  destruct (default ∅ update !! key), (default ∅ current !! key); reflexivity.
Qed.

(** X6.  [updateConfig] merges key by key inside the sections general,
    problem and test: a key of the update wins, every other key of the file
    is kept.  Each of the three sections exists afterwards, and any other
    section of the file (or of the update) is dropped. *)
Theorem updateConfig_merge (config : gmap string (gmap string toml)) (w : World)
    (section key : string) :
  let current := ConfigService.getConfig w in
  let result := snd (ConfigUpdate.updateConfig config w) in
  ConfigService.getConfig (fst (ConfigUpdate.updateConfig config w)) = result /\
  if bool_decide (section ∈ ["general"; "problem"; "test"])
  then exists merged,
         result !! section = Some merged /\
         merged !! key =
           match default ∅ (config !! section) !! key with
           | Some v => Some v
           | None => default ∅ (current !! section) !! key
           end
  else result !! section = None.
Proof.
  intros current result. split; [reflexivity|].
  subst result. unfold ConfigUpdate.updateConfig. simpl.
  fold current. unfold ConfigUpdate.mergeConfig.
  cbv [ConfigService.getConfig set_configFile configFile parse].
  case_bool_decide as Hsec.
  - repeat (apply elem_of_cons in Hsec; destruct Hsec as [-> | Hsec]);
      [| | |apply elem_of_nil in Hsec; destruct Hsec];
      eexists; (split; [|apply mergeSection_lookup]).
    + apply lookup_insert_eq.
    + rewrite lookup_insert_ne by discriminate. apply lookup_insert_eq.
    + rewrite !lookup_insert_ne by discriminate. apply lookup_insert_eq.
  - rewrite !lookup_insert_ne; [apply lookup_empty| | |];
      intros <-; apply Hsec; set_solver.
Qed.

Lemma mergeSection_idem (current update : option (gmap string toml)) :
  ConfigUpdate.mergeSection (Some (ConfigUpdate.mergeSection current update)) update
  = ConfigUpdate.mergeSection current update.
Proof.
  unfold ConfigUpdate.mergeSection. simpl.
  apply map_eq. intros k. rewrite !lookup_union.
  destruct (default ∅ update !! k), (default ∅ current !! k); reflexivity.
Qed.

Lemma getConfig_written (c : gmap string (gmap string toml)) (w : World) :
  ConfigService.getConfig (set_configFile (Holds (Written c)) w) = c.
Proof. reflexivity. Qed.

(** X7.  [updateConfig] is idempotent: applying the same update a second
    time writes the same configuration and returns the same result. *)
Theorem updateConfig_idempotent (config : gmap string (gmap string toml)) (w : World) :
  ConfigUpdate.updateConfig config (fst (ConfigUpdate.updateConfig config w))
  = ConfigUpdate.updateConfig config w.
Proof.
  unfold ConfigUpdate.updateConfig. cbn [fst snd]. rewrite !getConfig_written.
  set (c := ConfigService.getConfig w).
  assert (H : ConfigUpdate.mergeConfig (ConfigUpdate.mergeConfig c config) config
              = ConfigUpdate.mergeConfig c config).
  { unfold ConfigUpdate.mergeConfig at 1.
    assert (Hg : ConfigUpdate.mergeConfig c config !! "general"
                 = Some (ConfigUpdate.mergeSection (c !! "general") (config !! "general")))
      by (unfold ConfigUpdate.mergeConfig; apply lookup_insert_eq).
    assert (Hp : ConfigUpdate.mergeConfig c config !! "problem"
                 = Some (ConfigUpdate.mergeSection (c !! "problem") (config !! "problem")))
      by (unfold ConfigUpdate.mergeConfig; rewrite lookup_insert_ne by discriminate;
          apply lookup_insert_eq).
    assert (Ht : ConfigUpdate.mergeConfig c config !! "test"
                 = Some (ConfigUpdate.mergeSection (c !! "test") (config !! "test")))
      by (unfold ConfigUpdate.mergeConfig; rewrite !lookup_insert_ne by discriminate;
          apply lookup_insert_eq).
    rewrite Hg, Hp, Ht, !mergeSection_idem. reflexivity. }
  rewrite H. reflexivity.
Qed.

End ConfigMerge.

(* ===================================================================== *)
(** * Seeds as strings: parseInt, best scores, case output files          *)
(* ===================================================================== *)

Section SeedStrings.

Lemma to_uint_not_Nil (n : nat) : Nat.to_uint n <> Decimal.Nil.
Proof.
  intros H. pose proof (DecimalNat.Unsigned.of_to n) as Hn. rewrite H in Hn.
  simpl in Hn. subst n. discriminate H.
Qed.

(** Reading the digits of a decimal numeral continues the accumulator the
    way [Nat.of_uint_acc] does. *)
Lemma digits_string_of_uint (d : Decimal.uint) (acc : option Z) :
  (0 <= default 0 acc)%Z ->
  digits (NilEmpty.string_of_uint d) acc =
  match d with
  | Decimal.Nil => acc
  | _ => Some (Z.of_nat (Nat.of_uint_acc d (Z.to_nat (default 0%Z acc))))
  end.
Proof.
  revert acc. induction d as [|d IH|d IH|d IH|d IH|d IH|d IH|d IH|d IH|d IH|d IH];
    intros acc Hacc; [reflexivity|..];
    cbn [NilEmpty.string_of_uint digits];
    match goal with
    | |- context [digit_val ?c] =>
        let v := eval vm_compute in (digit_val c) in
        change (digit_val c) with v; cbv beta iota
    end;
    set (x := default 0%Z acc) in *; clearbody x;
    (rewrite IH by (simpl; lia));
    cbn [from_option id Nat.of_uint_acc]; rewrite Nat.tail_mul_spec;
    (destruct d; repeat f_equal; unfold Datatypes.id; simpl Nat.of_uint_acc; lia).
Qed.

Lemma digits_index_key (n : nat) : digits (index_key n) None = Some (Z.of_nat n).
Proof.
  unfold index_key. rewrite digits_string_of_uint by (simpl; lia).
  pose proof (to_uint_not_Nil n) as Hn.
  pose proof (DecimalNat.Unsigned.of_to n) as Hof. unfold Nat.of_uint in Hof.
  change (Z.to_nat (default 0%Z None)) with 0%nat.
  transitivity (Some (Z.of_nat (Nat.of_uint_acc (Nat.to_uint n) 0))).
  - destruct (Nat.to_uint n); [congruence|..]; reflexivity.
  - rewrite Hof. reflexivity.
Qed.

Lemma allDigits_string_of_uint (d : Decimal.uint) :
  allDigits (NilEmpty.string_of_uint d) = true.
Proof. induction d; simpl; auto. Qed.

Lemma allDigits_app (s t : string) :
  allDigits s = true -> allDigits t = true -> allDigits (s ++ t) = true.
Proof.
  induction s as [|c s IH]; simpl; [auto|].
  destruct (digit_val c); [auto | discriminate].
Qed.

Lemma allDigits_zeros (k : nat) : allDigits (zeros k) = true.
Proof. induction k; simpl; auto. Qed.

Lemma digit_not_space (c : ascii) (d : Z) : digit_val c = Some d -> is_space c = false.
Proof.
  unfold digit_val, is_space. intros H.
  destruct ((48 <=? nat_of_ascii c)%nat && (nat_of_ascii c <=? 57)%nat) eqn:E; [|discriminate].
  apply andb_prop in E. destruct E as [E1 E2].
  apply Nat.leb_le in E1. apply Nat.leb_le in E2.
  destruct (9 <=? nat_of_ascii c)%nat eqn:E3; simpl.
  - replace (nat_of_ascii c <=? 13)%nat with false by (symmetry; apply Nat.leb_gt; lia).
    simpl. apply Nat.eqb_neq. lia.
  - apply Nat.eqb_neq. lia.
Qed.

Lemma digit_bound (c : ascii) (d : Z) :
  digit_val c = Some d -> (48 <= nat_of_ascii c <= 57)%nat.
Proof.
  unfold digit_val. intros H.
  destruct ((48 <=? nat_of_ascii c)%nat && (nat_of_ascii c <=? 57)%nat) eqn:E; [|discriminate].
  apply andb_prop in E. destruct E as [E1 E2].
  apply Nat.leb_le in E1. apply Nat.leb_le in E2. lia.
Qed.

(** No white space starts with a byte below 194 that is not itself white
    space. *)
Lemma skip_ws_ascii (c : ascii) (r : string) :
  is_space c = false -> (nat_of_ascii c < 194)%nat -> skip_ws (String c r) = String c r.
Proof.
  intros Hsp Hlt. cbn [skip_ws]. rewrite Hsp.
  destruct r as [|c2 r2]; [reflexivity|].
  unfold is_space2.
  replace (nat_of_ascii c =? 194)%nat with false by (symmetry; apply Nat.eqb_neq; lia).
  cbn [andb]. destruct r2 as [|c3 r3]; [reflexivity|].
  unfold is_space3. cbv zeta.
  replace (nat_of_ascii c =? 225)%nat with false by (symmetry; apply Nat.eqb_neq; lia).
  replace (nat_of_ascii c =? 226)%nat with false by (symmetry; apply Nat.eqb_neq; lia).
  replace (nat_of_ascii c =? 227)%nat with false by (symmetry; apply Nat.eqb_neq; lia).
  replace (nat_of_ascii c =? 239)%nat with false by (symmetry; apply Nat.eqb_neq; lia).
  reflexivity.
Qed.

Lemma skip_ws_digit (c : ascii) (d : Z) (r : string) :
  digit_val c = Some d -> skip_ws (String c r) = String c r.
Proof.
  intros Hc. apply skip_ws_ascii; [exact (digit_not_space c d Hc)|].
  pose proof (digit_bound c d Hc). lia.
Qed.

Lemma skip_ws_minus (r : string) : skip_ws (String "-" r) = String "-" r.
Proof. apply skip_ws_ascii; [reflexivity | apply Nat.ltb_lt; reflexivity]. Qed.

(** On a string of digits, [parseInt] with radix 10 and [parseInt] without
    a radix both read the digits. *)
Lemma parse_allDigits (s : string) :
  allDigits s = true ->
  parseInt s = digits s None /\ parseIntAuto s = digits s None.
Proof.
  destruct s as [|c s]; [split; reflexivity|].
  intros H. simpl in H. destruct (digit_val c) as [d|] eqn:Hc; [|discriminate].
  pose proof (digit_not_space c d Hc) as Hsp.
  assert (Hsign : c <> "-"%char /\ c <> "+"%char /\ c <> "x"%char /\ c <> "X"%char).
  { repeat split; intros ->; vm_compute in Hc; discriminate. }
  destruct Hsign as (Hm & Hp & _ & _).
  unfold parseInt, parseIntAuto. rewrite (skip_ws_digit c d s Hc).
  assert (Hauto : unsignedAuto (String c s) = digits (String c s) None).
  { unfold unsignedAuto. destruct s as [|c2 s2]; [destruct c as [[] [] [] [] [] [] [] []]; reflexivity|].
    simpl in H. destruct (digit_val c2) as [d2|] eqn:Hc2; [|discriminate].
    assert (c2 <> "x"%char /\ c2 <> "X"%char) as [Hx HX]
      by (split; intros ->; vm_compute in Hc2; discriminate).
    destruct c as [[] [] [] [] [] [] [] []]; try reflexivity;
      destruct c2 as [[] [] [] [] [] [] [] []]; try reflexivity; congruence. }
  split.
  - destruct c as [[] [] [] [] [] [] [] []]; try reflexivity; congruence.
  - rewrite <- Hauto.
    destruct c as [[] [] [] [] [] [] [] []]; try reflexivity; congruence.
Qed.

Lemma parseInt_of_rendering (z : Z) :
  parseInt (toString z) = Some z /\ parseIntAuto (toString z) = Some z.
Proof.
  unfold toString. destruct (z <? 0)%Z eqn:E.
  - apply Z.ltb_lt in E.
    assert (Hd : digits (index_key (Z.to_nat (- z))) None = Some (- z)%Z)
      by (rewrite digits_index_key; f_equal; lia).
    assert (Ha : unsignedAuto (index_key (Z.to_nat (- z))) = Some (- z)%Z).
    { destruct (parse_allDigits (index_key (Z.to_nat (- z)))
                  (allDigits_string_of_uint _)) as [_ H2].
      unfold parseIntAuto in H2.
      assert (Hs : skip_ws (index_key (Z.to_nat (- z))) = index_key (Z.to_nat (- z))).
      { pose proof (allDigits_string_of_uint (Nat.to_uint (Z.to_nat (- z)))) as Hall.
        unfold index_key. destruct (NilEmpty.string_of_uint _) as [|c s]; [reflexivity|].
        simpl in Hall. destruct (digit_val c) eqn:Hc; [|discriminate].
        exact (skip_ws_digit c _ s Hc). }
      rewrite Hs in H2.
      pose proof (allDigits_string_of_uint (Nat.to_uint (Z.to_nat (- z)))) as Hall.
      unfold index_key in *. destruct (NilEmpty.string_of_uint _) as [|c s] eqn:Es.
      - simpl in Hd. discriminate Hd.
      - simpl in Hall. destruct (digit_val c) eqn:Hc; [|discriminate].
        assert (c <> "-"%char /\ c <> "+"%char) as [Hm Hp]
          by (split; intros ->; vm_compute in Hc; discriminate).
        rewrite <- Hd, <- H2.
        destruct c as [[] [] [] [] [] [] [] []]; try reflexivity; congruence. }
    unfold parseInt, parseIntAuto. rewrite skip_ws_minus. rewrite Hd, Ha. simpl.
    split; f_equal; lia.
  - apply Z.ltb_ge in E.
    destruct (parse_allDigits (index_key (Z.to_nat z)) (allDigits_string_of_uint _)) as [H1 H2].
    rewrite H1, H2, digits_index_key. split; f_equal; lia.
Qed.

(** X8.  [parseInt] reads back the decimal rendering of every integer, with
    radix 10 as in [getBestScores] and without a radix as in
    [saveTestResults]. *)
Theorem parseInt_toString (z : Z) :
  parseInt (toString z) = Some z /\ parseIntAuto (toString z) = Some z.
Proof. exact (parseInt_of_rendering z). Qed.

End SeedStrings.

Section CaseFiles.

Lemma string_length_app (s t : string) :
  String.length (s ++ t) = (String.length s + String.length t)%nat.
Proof. induction s as [|c s IH]; simpl; [reflexivity | rewrite IH; reflexivity]. Qed.

Lemma txtStem_app (s : string) : txtStem (s ++ ".txt") = Some s.
Proof.
  induction s as [|c s IH]; [reflexivity|].
  change (String c s ++ ".txt") with (String c (s ++ ".txt")).
  change (txtStem (String c (s ++ ".txt")))
    with (if String.eqb (String c (s ++ ".txt")) ".txt" then Some EmptyString
          else String c <$> txtStem (s ++ ".txt")).
  assert (H : String.eqb (String c (s ++ ".txt")) ".txt" = false).
  { apply String.eqb_neq. intros Heq. apply (f_equal String.length) in Heq.
    simpl in Heq. rewrite string_length_app in Heq. simpl in Heq. lia. }
  rewrite H, IH. reflexivity.
Qed.

Lemma digits_zeros_app (k : nat) (d : Decimal.uint) (acc : option Z) :
  d <> Decimal.Nil -> default 0%Z acc = 0%Z ->
  digits (zeros k ++ NilEmpty.string_of_uint d) acc
  = digits (NilEmpty.string_of_uint d) None.
Proof.
  intros Hd. revert acc. induction k as [|k IH]; intros acc Hacc.
  - change (digits (NilEmpty.string_of_uint d) acc = digits (NilEmpty.string_of_uint d) None).
    rewrite (digits_string_of_uint d acc) by (rewrite Hacc; lia).
    rewrite (digits_string_of_uint d None) by (simpl; lia).
    rewrite Hacc. destruct d; [congruence|..]; reflexivity.
  - change (digits (zeros k ++ NilEmpty.string_of_uint d)
              (Some (10 * default 0%Z acc + 0)%Z)
            = digits (NilEmpty.string_of_uint d) None).
    apply IH. rewrite Hacc. reflexivity.
Qed.

Lemma parseIntAuto_padStart4 (n : nat) :
  parseIntAuto (padStart4 (index_key n)) = Some (Z.of_nat n).
Proof.
  unfold padStart4, index_key.
  destruct (parse_allDigits
              (zeros (4 - String.length (NilEmpty.string_of_uint (Nat.to_uint n)))
               ++ NilEmpty.string_of_uint (Nat.to_uint n))) as [_ H].
  { apply allDigits_app; [apply allDigits_zeros | apply allDigits_string_of_uint]. }
  rewrite H, digits_zeros_app by (try apply to_uint_not_Nil; reflexivity).
  apply digits_index_key.
Qed.

Lemma caseNumber_of_rendering (z : Z) :
  caseNumber (toString z ++ ".txt") = Some z /\
  ((0 <= z)%Z -> caseNumber (caseFileName z) = Some z).
Proof.
  split.
  - unfold caseNumber. rewrite txtStem_app. apply parseInt_of_rendering.
  - intros Hz. unfold caseNumber, caseFileName. rewrite txtStem_app.
    unfold toString. replace (z <? 0)%Z with false by (symmetry; apply Z.ltb_ge; exact Hz).
    rewrite parseIntAuto_padStart4. f_equal. lia.
Qed.

(** X9.  A case output file that the tool names by the plain decimal
    rendering of its seed is recognised with that seed; and for a seed that
    is not negative, so is the fixed-width name under which the file is
    stored and later looked up, so that a stored file is found again under
    its own number. *)
Theorem caseNumber_of_names (z : Z) :
  caseNumber (toString z ++ ".txt") = Some z /\
  ((0 <= z)%Z -> caseNumber (caseFileName z) = Some z).
Proof. exact (caseNumber_of_rendering z). Qed.

Lemma caseNumber_of_names_witness :
  caseNumber "12.txt" = Some 12%Z /\ caseNumber "0012.txt" = Some 12%Z.
Proof.
  split.
  - exact (proj1 (caseNumber_of_names 12)).
  - apply (proj2 (caseNumber_of_names 12)). lia.
Defined.

Lemma caseFileName_inj (m n : Z) :
  (0 <= m)%Z -> (0 <= n)%Z -> caseFileName m = caseFileName n -> m = n.
Proof.
  intros Hm Hn H. apply (f_equal caseNumber) in H.
  rewrite (proj2 (caseNumber_of_rendering m) Hm), (proj2 (caseNumber_of_rendering n) Hn) in H.
  congruence.
Qed.

Lemma copyCaseOutput_lookup (dest : gmap string string) (f : string * string) (n : Z) :
  (forall m, caseNumber (fst f) = Some m -> (0 <= m)%Z) -> (0 <= n)%Z ->
  CaseOutputs.copyCaseOutput dest f !! caseFileName n =
  if bool_decide (caseNumber (fst f) = Some n) then Some (snd f) else dest !! caseFileName n.
Proof.
  intros Hf Hn. unfold CaseOutputs.copyCaseOutput.
  unfold caseNumber in *. destruct (txtStem (fst f)) as [stem|].
  - destruct (parseIntAuto stem) as [m|].
    + case_bool_decide as Hm.
      * injection Hm as ->. apply lookup_insert_eq.
      * apply lookup_insert_ne. intros Heq. apply Hm. f_equal.
        apply caseFileName_inj; [apply Hf; reflexivity | exact Hn | exact Heq].
    + rewrite bool_decide_eq_false_2 by discriminate. reflexivity.
  - rewrite bool_decide_eq_false_2 by discriminate. reflexivity.
Qed.

Lemma copyCaseOutputs_lookup (files : list (string * string)) (dest : gmap string string)
    (n : Z) :
  nonNegativeCases files -> (0 <= n)%Z ->
  CaseOutputs.copyCaseOutputs (Some files) dest !! caseFileName n =
  match lastOutput files n with
  | Some c => Some c
  | None => dest !! caseFileName n
  end.
Proof.
  intros Hfiles Hn. simpl. revert dest.
  induction files as [|f files IH]; intros dest; [reflexivity|].
  cbn [foldl lastOutput]. rewrite IH.
  - destruct (lastOutput files n); [reflexivity|].
    rewrite copyCaseOutput_lookup; [case_bool_decide; reflexivity| |exact Hn].
    intros m Hm. apply (Hfiles f m); [left | exact Hm].
  - intros g m Hg. apply Hfiles. right. exact Hg.
Qed.

(** X10.  Case outputs survive the copy and the lookup.  When the files
    of tools/out that carry a case number carry a non-negative one, then for
    a seed that is not negative [findTestCaseResult] returns, from the
    directory [saveTestResults] filled, the content of the last file of the
    listing that carries that seed, provided the summary lists the seed;
    for a seed the summary does not list it returns null, whatever files
    there are. *)
Theorem findTestCaseResult_after_copy (w : World) (i : string) (s : SummaryJson)
    (cs : list SummaryCaseRaw) (files : list (string * string)) (n : Z) :
  Repo.summaryFile w i = Holds (SummaryData s) ->
  cases s = ArrayCases cs ->
  nonNegativeCases files ->
  (0 <= n)%Z ->
  RepositoryOps.findTestCaseResult i n w (CaseOutputs.copyCaseOutputs (Some files) ∅)
  = Ok (if existsb (fun c => (seed c =? n)%Z) cs then lastOutput files n else None).
Proof.
  intros Hs Hcs Hfiles Hn. unfold RepositoryOps.findTestCaseResult.
  rewrite Hs. simpl. rewrite Hcs. cbn [arrayOf].
  destruct (existsb _ cs); [|reflexivity].
  f_equal. pose proof (copyCaseOutputs_lookup files ∅ n Hfiles Hn) as H.
  simpl in H. rewrite H. rewrite lookup_empty. destruct (lastOutput files n); reflexivity.
Qed.

Lemma findTestCaseResult_after_copy_witness :
  RepositoryOps.findTestCaseResult "run-1" 1 Examples.historyWithoutCount
    (CaseOutputs.copyCaseOutputs (Some MoreExamples.outFiles) ∅) = Ok (Some "second").
Proof.
  rewrite (findTestCaseResult_after_copy Examples.historyWithoutCount "run-1"
             Examples.summaryWithoutCount [Examples.case 1 (Some 500%Q)]
             MoreExamples.outFiles 1);
    [reflexivity | reflexivity | reflexivity | | lia].
  intros f m Hin Hm. apply list_elem_of_In in Hin. simpl in Hin.
  destruct Hin as [<-|[<-|[<-|[]]]]; vm_compute in Hm;
    try discriminate Hm; injection Hm as <-; lia.
Defined.

End CaseFiles.

Section BestScoresFile.

Lemma foldl_addBestScore_table (l : list (Z * Q)) (m : gmap Z Q) :
  foldl ConfigService.addBestScore m
    (map (fun e : Z * Q => (toString (fst e), JNumber (snd e))) l)
  = foldl (fun (r : gmap Z Q) (e : Z * Q) => <[fst e := snd e]> r) m l.
Proof.
  revert m. induction l as [|[z q] l IH]; intros m; [reflexivity|].
  cbn [map foldl]. rewrite <- IH. f_equal.
  unfold ConfigService.addBestScore. cbn [fst snd].
  rewrite (proj1 (parseInt_of_rendering z)). reflexivity.
Qed.

Lemma foldl_insert_lookup (l : list (Z * Q)) (m : gmap Z Q) (z : Z) :
  NoDup (map fst l) ->
  foldl (fun (r : gmap Z Q) (e : Z * Q) => <[fst e := snd e]> r) m l !! z =
  match (list_to_map l : gmap Z Q) !! z with
  | Some q => Some q
  | None => m !! z
  end.
Proof.
  revert m. induction l as [|[k v] l IH]; intros m Hnd.
  - simpl. rewrite lookup_empty. reflexivity.
  - cbn [map fst] in Hnd. apply NoDup_cons in Hnd. destruct Hnd as [Hk Hnd].
    cbn [foldl list_to_map foldr fst snd]. rewrite IH by exact Hnd.
    change (foldr (fun '(k0, v0) => <[k0:=v0]>) ∅ l) with (list_to_map l : gmap Z Q).
    destruct (decide (k = z)) as [->|Hne].
    + rewrite !lookup_insert_eq.
      assert (Hnone : (list_to_map l : gmap Z Q) !! z = None).
      { apply not_elem_of_list_to_map_1. exact Hk. }
      rewrite Hnone. reflexivity.
    + rewrite !lookup_insert_ne by exact Hne. reflexivity.
Qed.

(** X11.  [getBestScores] reads a well-formed best_scores.json exactly: for
    a file whose keys are the decimal renderings of distinct seeds and whose
    values are numbers, the table returned has precisely those seeds with
    those scores. *)
Theorem getBestScores_of_table (w : World) (l : list (Z * Q)) :
  NoDup (map fst l) ->
  bestScoresFile w = Holds (tableToJson l) ->
  ConfigService.getBestScores w = list_to_map l.
Proof.
  intros Hnd Hfile. unfold ConfigService.getBestScores, ConfigService.readBestScores.
  rewrite Hfile. cbn [tableToJson Object_entries].
  rewrite foldl_addBestScore_table.
  apply map_eq. intros z. rewrite foldl_insert_lookup by exact Hnd.
  rewrite lookup_empty. destruct (list_to_map l !! z); reflexivity.
Qed.

Lemma getBestScores_of_table_witness :
  ConfigService.getBestScores MoreExamples.tableWorld !! 2%Z = Some 800%Q.
Proof.
  rewrite (getBestScores_of_table MoreExamples.tableWorld MoreExamples.table);
    [reflexivity | | reflexivity].
  apply (bool_decide_unpack _). vm_compute. exact I.
Defined.

End BestScoresFile.

(* ===================================================================== *)
(** * ExecutionRepository: what is written is what is read                *)
(* ===================================================================== *)

Section Repository.

Lemma findById_after_save (e : TestExecution) (w : World) :
  Repo.findById (id e) (Repo.save e w) =
  match Repo.readJsonFile (Repo.summaryFile w (id e)) with
  | Throw => Throw
  | Ok (Some (SummaryData s)) => Ok (Some (Repo.mergeWithSummary e s w))
  | Ok _ => Ok (Some e)
  end.
Proof.
  unfold Repo.findById, Repo.infoFile, Repo.summaryFile, Repo.dirExists, Repo.save.
  cbn [results set_results]. rewrite lookup_insert_eq. cbn [info summary Repo.readJsonFile].
  destruct (Repo.readJsonFile _) as [[[|s]|]|]; reflexivity.
Qed.

(** X12.  Reading back a record that was just saved: without a summary.json
    in its directory the record comes back as it was saved; with one, the
    aggregates of the record are replaced by those computed from the
    summary; a summary.json that is no JSON makes the read throw. *)
Theorem findById_save (e : TestExecution) (w : World) :
  Repo.findById (id e) (Repo.save e w) =
  match Repo.readJsonFile (Repo.summaryFile w (id e)) with
  | Throw => Throw
  | Ok (Some (SummaryData s)) => Ok (Some (Repo.mergeWithSummary e s w))
  | Ok _ => Ok (Some e)
  end.
Proof. exact (findById_after_save e w). Qed.

Lemma findById_save_frame (e : TestExecution) (w : World) (i : string) :
  i <> id e -> Repo.findById i (Repo.save e w) = Repo.findById i w.
Proof.
  intros Hne.
  unfold Repo.findById, Repo.infoFile, Repo.summaryFile, Repo.dirExists, Repo.save.
  cbn [results set_results]. rewrite lookup_insert_ne by congruence. reflexivity.
Qed.

(** X13.  [save] touches one directory only: every other run reads as
    before. *)
Theorem findById_save_other (e : TestExecution) (w : World) (i : string) :
  i <> id e -> Repo.findById i (Repo.save e w) = Repo.findById i w.
Proof. exact (findById_save_frame e w i). Qed.

Lemma findById_save_other_witness :
  Repo.findById "run-1" (Repo.save (Examples.finished "run-2") Examples.historyWithoutCount)
  = Repo.findById "run-1" Examples.historyWithoutCount.
Proof. apply findById_save_other. discriminate. Defined.

(** X14.  A deleted run is not found, the others read as before, and
    deleting again changes nothing. *)
Theorem delete_spec (i : string) (w : World) :
  Repo.findById i (RepositoryOps.delete i w) = Ok None /\
  (forall j, j <> i ->
     Repo.findById j (RepositoryOps.delete i w) = Repo.findById j w) /\
  RepositoryOps.delete i (RepositoryOps.delete i w) = RepositoryOps.delete i w.
Proof.
  unfold RepositoryOps.delete. split; [|split].
  - unfold Repo.findById, Repo.infoFile, Repo.summaryFile, Repo.dirExists.
    cbn [results set_results]. rewrite lookup_delete_eq. reflexivity.
  - intros j Hne.
    unfold Repo.findById, Repo.infoFile, Repo.summaryFile, Repo.dirExists.
    cbn [results set_results]. rewrite lookup_delete_ne by congruence. reflexivity.
  - unfold set_results. cbn [results configFile backupFile bestScoresFile latestSummary now].
    rewrite delete_delete_eq. reflexivity.
Qed.

(** X15.  [updateStatus] has no guard on the status a run already has: for
    a run that is found under its own id, whatever status is asked for is
    the status the run reads with afterwards. *)
Theorem updateStatus_overwrites (i : string) (e : TestExecution) (st : TestExecutionStatus)
    (w : World) :
  Repo.findById i w = Ok (Some e) -> id e = i ->
  statusOf (fst (updateStatus i st w)) i = Some st.
Proof.
  intros Hfind Hid. unfold updateStatus. rewrite Hfind. cbn [fst].
  unfold statusOf.
  replace (Repo.findById i (Repo.save (set_status st e) w))
    with (Repo.findById (id (set_status st e)) (Repo.save (set_status st e) w))
    by (cbn [id set_status]; rewrite Hid; reflexivity).
  rewrite findById_after_save. cbn [id set_status]. rewrite Hid.
  unfold Repo.findById in Hfind.
  destruct (Repo.readJsonFile (Repo.infoFile w i)) as [infoData|]; [|discriminate].
  destruct (Repo.readJsonFile (Repo.summaryFile w i)) as [[[|s]|]|]; try reflexivity.
  discriminate.
Qed.

Lemma updateStatus_overwrites_witness :
  statusOf Examples.historyWithoutCount "run-1" = Some COMPLETED /\
  statusOf (fst (updateStatus "run-1" RUNNING Examples.historyWithoutCount)) "run-1"
  = Some RUNNING.
Proof.
  split; [reflexivity|].
  destruct (Repo.findById "run-1" Examples.historyWithoutCount) as [[e|]|] eqn:E;
    try (vm_compute in E; discriminate E).
  apply (updateStatus_overwrites "run-1" e RUNNING Examples.historyWithoutCount E).
  vm_compute in E. injection E as <-. reflexivity.
Defined.






End Repository.

(* ===================================================================== *)
(** * ScoreAnalysisService.recalculateAllRelativeScores: when it throws   *)
(* ===================================================================== *)

Section Recalculation.

Lemma summaryFile_save (e : TestExecution) (w : World) (i : string) :
  Repo.summaryFile (Repo.save e w) i = Repo.summaryFile w i.
Proof.
  unfold Repo.summaryFile, Repo.save. cbn [results set_results].
  destruct (decide (i = id e)) as [->|Hne].
  - rewrite lookup_insert_eq. reflexivity.
  - rewrite lookup_insert_ne by congruence. reflexivity.
Qed.

Lemma recalculateOne_summaryFile (bestScores : gmap Z Q) (objective : Objective)
    (st : World * nat) (exe : TestExecution) (i : string) :
  Repo.summaryFile (fst (recalculateOne bestScores objective st exe)) i
  = Repo.summaryFile (fst st) i.
Proof.
  destruct st as [w n]. unfold recalculateOne. cbv zeta.
  destruct (ScoreAnalysisService.readSummary _) as [[|sm]|]; try reflexivity.
  destruct (cases sm); try reflexivity;
    destruct (num_gt _ _); try reflexivity; apply summaryFile_save.
Qed.



Lemma recalculateLoop_summaryFile (bestScores : gmap Z Q) (objective : Objective)
    (l : list TestExecution) (st : World * nat) (i : string) :
  Repo.summaryFile (fst (recalculateLoop bestScores objective l st)) i
  = Repo.summaryFile (fst st) i.
Proof.
  revert st. induction l as [|exe l IH]; intros st; [reflexivity|].
  cbn [recalculateLoop].
  pose proof (recalculateOne_summaryFile bestScores objective st exe i) as H1.
  destruct (recalculateOne bestScores objective st exe) as [w' [n'|]]; cbn [fst] in *.
  - rewrite IH. exact H1.
  - exact H1.
Qed.



(** X18.  Whether it returns or throws, [recalculateAllRelativeScores]
    leaves every summary.json, the best scores and the configuration as
    they are: it writes execution_info.json files only. *)
Theorem recalculateAllRelativeScores_writes_info_only (w : World) :
  let w' := fst (recalculateAllRelativeScores w) in
  (forall i, Repo.summaryFile w' i = Repo.summaryFile w i) /\
  bestScoresFile w' = bestScoresFile w /\
  configFile w' = configFile w /\ backupFile w' = backupFile w /\
  latestSummary w' = latestSummary w.
Proof.
  cbv zeta. unfold recalculateAllRelativeScores, ScoreAnalysisService.loadConfig.
  pose proof (recalculateLoop_summaryFile (ConfigService.getBestScores w)
                (ConfigService.getObjective w) (findAll w) (w, 0%nat)) as Hsum.
  assert (Hrest : forall l st,
            bestScoresFile (fst (recalculateLoop (ConfigService.getBestScores w)
                                   (ConfigService.getObjective w) l st))
              = bestScoresFile (fst st) /\
            configFile (fst (recalculateLoop (ConfigService.getBestScores w)
                               (ConfigService.getObjective w) l st))
              = configFile (fst st) /\
            backupFile (fst (recalculateLoop (ConfigService.getBestScores w)
                               (ConfigService.getObjective w) l st))
              = backupFile (fst st) /\
            latestSummary (fst (recalculateLoop (ConfigService.getBestScores w)
                                  (ConfigService.getObjective w) l st))
              = latestSummary (fst st)).
  { induction l as [|exe l IH]; intros st; [repeat split; reflexivity|].
    cbn [recalculateLoop].
    assert (H1 : bestScoresFile (fst (recalculateOne (ConfigService.getBestScores w)
                                        (ConfigService.getObjective w) st exe))
                   = bestScoresFile (fst st) /\
                 configFile (fst (recalculateOne (ConfigService.getBestScores w)
                                    (ConfigService.getObjective w) st exe))
                   = configFile (fst st) /\
                 backupFile (fst (recalculateOne (ConfigService.getBestScores w)
                                    (ConfigService.getObjective w) st exe))
                   = backupFile (fst st) /\
                 latestSummary (fst (recalculateOne (ConfigService.getBestScores w)
                                       (ConfigService.getObjective w) st exe))
                   = latestSummary (fst st)).
    { destruct st as [w0 n0]. unfold recalculateOne. cbv zeta.
      destruct (ScoreAnalysisService.readSummary _) as [[|sm]|];
        try (repeat split; reflexivity).
      destruct (cases sm); try (repeat split; reflexivity);
        destruct (num_gt _ _); repeat split; reflexivity. }
    destruct (recalculateOne _ _ st exe) as [w1 [n1|]]; cbn [fst] in *.
    - destruct (IH (w1, n1)) as (A & B & C & D). cbn [fst] in *.
      destruct H1 as (A1 & B1 & C1 & D1). repeat split; congruence.
    - exact H1. }
  specialize (Hrest (findAll w) (w, 0%nat)).
  destruct (recalculateLoop _ _ _ _) as [w' [m|]]; cbn [fst] in *;
    (split; [exact Hsum | exact Hrest]).
Qed.

End Recalculation.

(* ===================================================================== *)
(** * ProcessManager: the scratch directory and the process table         *)
(* ===================================================================== *)

Section Processes.

(** X19.  tools/out around a run.  When tools/out exists at the start, it
    is back at the end with its old content, whatever the tool wrote, and no
    tools/out_bak is left.  When it does not exist but a tools/out_bak is
    lying around, that directory takes the place of what the tool wrote.
    Only when neither exists does the tool's output stay. *)
Theorem out_directory_after_run {D : Type} (s : Scratch.Dirs D) (written : option D) :
  Scratch.restoreOutDirectory (Scratch.toolWrote written (Scratch.backupOutDirectory s)) =
  match Scratch.out s, Scratch.out_bak s with
  | Some d0, _ => {| Scratch.out := Some d0; Scratch.out_bak := None |}
  | None, Some b => {| Scratch.out := Some b; Scratch.out_bak := None |}
  | None, None => {| Scratch.out := written; Scratch.out_bak := None |}
  end.
Proof.
  unfold Scratch.restoreOutDirectory, Scratch.toolWrote, Scratch.backupOutDirectory.
  destruct s as [[d0|] [b|]]; reflexivity.
Qed.

(** X20.  A second [killProcess] for the same run finds no process: it
    returns false and changes nothing. *)
Theorem killProcess_twice (executionId : string) (s : System) :
  let s1 := fst (ProcessManager.killProcess executionId s) in
  ProcessManager.killProcess executionId s1 = (s1, Ok false).
Proof.
  cbv zeta. unfold ProcessManager.killProcess.
  destruct (activeProcesses s !! executionId) as [process|] eqn:E; cbn [fst].
  - cbn [activeProcesses set_activeProcesses set_children].
    rewrite lookup_delete_eq. reflexivity.
  - rewrite E. reflexivity.
Qed.

End Processes.

(* ===================================================================== *)
(** * Relative scores: range and enrichment                               *)
(* ===================================================================== *)

Section RelativeScores.

(** X21.  On numbers, [calculateRelativeScore] is a number that is not
    negative; it is at most 1 when the score does not beat the best score
    (is not above it under Max, not below it under Min). *)
Theorem calculateRelativeScore_range (s b : Q) (objective : Objective) :
  exists q : Q,
    ConfigService.calculateRelativeScore (Num s) (Num b) objective = Num q /\
    (0 <= q)%Q /\
    ((match objective with Max => s <= b | Min => b <= s end)%Q -> (q <= 1)%Q).
Proof.
  unfold ConfigService.calculateRelativeScore, num_le.
  destruct (Qle_bool s 0) eqn:Hs; cbn [orb].
  { exists 0%Q. repeat split; [apply Qle_refl | intros _; discriminate]. }
  destruct (Qle_bool b 0) eqn:Hb; cbn [orb].
  { exists 0%Q. repeat split; [apply Qle_refl | intros _; discriminate]. }
  assert (Hs' : (0 < s)%Q).
  { apply Qnot_le_lt. intros H. apply Qle_bool_iff in H. congruence. }
  assert (Hb' : (0 < b)%Q).
  { apply Qnot_le_lt. intros H. apply Qle_bool_iff in H. congruence. }
  assert (Hsz : Qeq_bool s 0 = false).
  { destruct (Qeq_bool s 0) eqn:E; [|reflexivity]. apply Qeq_bool_eq in E.
    rewrite E in Hs'. destruct (Qlt_irrefl 0 Hs'). }
  assert (Hbz : Qeq_bool b 0 = false).
  { destruct (Qeq_bool b 0) eqn:E; [|reflexivity]. apply Qeq_bool_eq in E.
    rewrite E in Hb'. destruct (Qlt_irrefl 0 Hb'). }
  destruct objective; unfold num_div.
  - rewrite Hbz. exists (s / b)%Q. split; [reflexivity|]. split.
    + apply Qle_shift_div_l; [exact Hb'|]. rewrite Qmult_0_l. apply Qlt_le_weak. exact Hs'.
    + intros H. apply Qle_shift_div_r; [exact Hb'|]. rewrite Qmult_1_l. exact H.
  - rewrite Hsz. exists (b / s)%Q. split; [reflexivity|]. split.
    + apply Qle_shift_div_l; [exact Hs'|]. rewrite Qmult_0_l. apply Qlt_le_weak. exact Hb'.
    + intros H. apply Qle_shift_div_r; [exact Hs'|]. rewrite Qmult_1_l. exact H.
Qed.

(** X22.  [enrichTestCasesWithRelativeScore] returns one entry per case, in
    order, with the seed and score of the case; its relative score is null
    exactly when the case has no score or its seed no best score, and is
    otherwise the relative score that enters the averages. *)
Theorem enrichTestCasesWithRelativeScore_spec (cs : list SummaryCaseRaw) (w : World) :
  let bestScores := ConfigService.getBestScores w in
  let objective := ConfigService.getObjective w in
  let testCases := Enrich.enrichTestCasesWithRelativeScore cs w in
  map Case.seed testCases = map seed cs /\
  map Case.score testCases = map score cs /\
  map Case.relativeScore testCases =
    map (fun c => if scored bestScores c
                  then Some (relativeScoreOf bestScores objective c) else None) cs.
Proof.
  cbv zeta. unfold Enrich.enrichTestCasesWithRelativeScore, ScoreAnalysisService.loadConfig.
  rewrite !map_map. repeat split; try reflexivity.
  apply map_ext. intros c. unfold Enrich.enrichCase, scored, relativeScoreOf.
  cbn [Case.relativeScore].
  destruct (score c), (ConfigService.getBestScores w !! seed c); reflexivity.
Qed.

(** X23.  For a summary with a positive [case_count] and an array of cases,
    [enrichExecutionWithRelativeScore] sets the average that
    [calculateExecutionStats] reports. *)
Theorem enrichExecutionWithRelativeScore_agrees (execution : TestExecution) (s : SummaryJson)
    (cs : list SummaryCaseRaw) (w : World) :
  cases s = ArrayCases cs ->
  (0 < default 0 (case_count s))%Z ->
  averageRelativeScore (Enrich.enrichExecutionWithRelativeScore execution (Some s) w)
  = Some (ScoreAnalysisService.stat_averageRelativeScore
            (ScoreAnalysisService.calculateExecutionStats s w)).
Proof.
  intros Hcs Hcount.
  unfold Enrich.enrichExecutionWithRelativeScore, ScoreAnalysisService.calculateExecutionStats.
  rewrite Hcs. cbn [arrayOf ScoreAnalysisService.stat_averageRelativeScore].
  apply Z.ltb_lt in Hcount. rewrite Hcount.
  unfold ScoreAnalysisService.loadConfig. reflexivity.
Qed.

Lemma enrichExecutionWithRelativeScore_agrees_witness :
  averageRelativeScore
    (Enrich.enrichExecutionWithRelativeScore (Examples.finished "run-1")
       (Some Examples.summaryWithZero) Examples.emptyWorld)
  = Some (ScoreAnalysisService.stat_averageRelativeScore
            (ScoreAnalysisService.calculateExecutionStats Examples.summaryWithZero
               Examples.emptyWorld)).
Proof.
  apply (enrichExecutionWithRelativeScore_agrees (Examples.finished "run-1")
           Examples.summaryWithZero
           [Examples.case 1 (Some 500%Q); Examples.case 2 (Some 0%Q)] Examples.emptyWorld);
    [reflexivity | reflexivity].
Defined.

End RelativeScores.

(* ===================================================================== *)
(** * The recalculation as seen through the repository                    *)
(* ===================================================================== *)

Section RecalculationUnseen.









End RecalculationUnseen.
